(** * Conversation-window controller of zara-ai ([openai.py])

    A shallow embedding of the class [OpenAIChatbot]: the transcript
    ([conversation_history]), the token budget, the trimming done by
    [update_conversation_history] and the response loop of
    [generate_response], followed by the properties of the specification
    that were checked against it.

    Modelling conventions.
    - A message is the Python dict with the keys [role], [content] and,
      for function messages, [name].  The controller is embedded on the
      contents of its lists: the transcript is the list of the values of
      its dicts.  This is exact as long as the dict that an assignment
      changes is referenced once, which holds for the dicts that
      [update_conversation_history] appends.  The dicts that the caller
      gives to [__init__] can be shared between the primer and the
      transcript; the module [Shared] embeds
      [update_conversation_history] on a heap of dicts for the properties
      that depend on it, and [update_on_contents] relates the two.
    - The tokenizer ([tiktoken]) and [json.loads] are external libraries:
      they are the members of the classes [Tokenizer] and [JsonDecoder].
      The default primer ([zara_personality.primer]) is not part of the
      sources, so [__init__] always takes its primer as an argument.
    - An attribute that [__init__] does not assign does not exist on the
      object, and reading it raises [AttributeError]; this is the case of
      [error_callback], whose field is [None] for a missing attribute.
    - [response_token_size] is [None] unless the caller gives it, and
      comparing a number with [None] raises [TypeError].
    - The completion service is a script: the list of replies that the
      successive calls of [create_response] will receive.  When the
      script is over the service does not answer ([NoReply]).
    - Callbacks and [print] are observed through a trace of events; a
      callback sees the transcript as it is when it is called, and does
      not change the chatbot.
    - A method is a computation in the monad [M]: it transforms the world
      and returns a value or raises a Python exception.  Loops and
      recursion take fuel; the fuel they are given is proved sufficient
      ([trim_loop_enough_fuel], [generate_response_has_fuel]).
    - Of [util.py], [roll_dice] is embedded over a random source whose
      generator is threaded through the draws; [get_time_info] reads the
      clock of the machine and is left out. *)

From Stdlib Require Import ZArith Lia Ascii String.
From stdpp Require Import base option list strings gmap.

Local Open Scope Z_scope.

(** ** Data model *)

(** One entry of the transcript.  [name] is [None] when the dict has no
    key ["name"], and [Some v] when it has (with value [v], which is
    [None] for Python's [None]). *)
Record Message := {
  role : string;
  content : string;
  name : option (option string)
}.

(** A callable given as a callback, identified by a label. *)
Definition Callable := string.

(** Classes of the Python exceptions that the controller can meet. *)
Inductive ExnClass :=
| TypeError
| IndexError
| AttributeError
| JSONDecodeError
| HandlerException.

(** An exception: its class and the text that [str(e)] gives. *)
Record Exn := {
  exn_class : ExnClass;
  exn_detail : string
}.

(** What a registered function does on its decoded arguments: it
    returns a value ([None] is Python's [None]) or raises. *)
Inductive HandlerOutcome :=
| Returns (v : option string)
| Raises (detail : string).

(** The tokenizer, as the controller uses it: [tokenizer.count_tokens]
    on a text, and the [string]s of the tokens of [tokenizer.tokenize]. *)
Class Tokenizer := {
  count_tokens_text : string → Z;
  tokenize : string → list string
}.

(** [json.loads] on the arguments of a function call; [None] when the
    text is not valid JSON. *)
Class JsonDecoder := {
  Args : Type;
  json_loads : string → option Args
}.

Section Controller.
Context `{Tokenizer} `{JsonDecoder}.

(** The instance attributes.  [error_callback] is [None] when the
    attribute does not exist on the object. *)
Record OpenAIChatbot := {
  model : string;
  max_token_size : Z;
  trim_message_callback : option Callable;
  response_token_size : option Z;
  functions : option (list string);
  functions_callable : option (gmap string (Args → HandlerOutcome));
  initial_messages : list Message;
  conversation_history : list Message;
  error_callback : option (option Callable)
}.

Definition set_conversation_history (h : list Message) (s : OpenAIChatbot)
  : OpenAIChatbot :=
  {| model := model s;
     max_token_size := max_token_size s;
     trim_message_callback := trim_message_callback s;
     response_token_size := response_token_size s;
     functions := functions s;
     functions_callable := functions_callable s;
     initial_messages := initial_messages s;
     conversation_history := h;
     error_callback := error_callback s |}.

(** The [function_call] entry of a reply. *)
Record FunctionCall := {
  fc_name : string;
  fc_arguments : string
}.

(** [response.choices[0].message]: both entries are read with [get]. *)
Record Reply := {
  function_call : option FunctionCall;
  reply_content : option string
}.

(** The arguments of [openai.ChatCompletion.create]. *)
Record Request := {
  req_model : string;
  req_messages : list Message;
  req_functions : option (list string);
  req_max_tokens : option Z
}.

(** The two places where [create_response] is called. *)
Inductive CallSite :=
| FirstRequest
| ContinuationRequest.

Inductive Event :=
| EvTrim (cb : Callable) (seen : list Message)
| EvError (cb : Callable) (func_name detail : string)
| EvPrint (text : string)
| EvRequest (site : CallSite) (req : Request).

Record World := {
  self : OpenAIChatbot;
  service : list Reply;
  trace : list Event
}.

(** ** The monad of methods *)

Inductive Outcome (A : Type) :=
| Ok (a : A)
| Raised (e : Exn)
| NoReply
| OutOfFuel.
Global Arguments Ok {A} a.
Global Arguments Raised {A} e.
Global Arguments NoReply {A}.
Global Arguments OutOfFuel {A}.

Definition M (A : Type) : Type := World → Outcome A * World.

Global Instance M_ret : MRet M := λ A a w, (Ok a, w).

Global Instance M_bind : MBind M := λ A B f m w,
  match m w with
  | (Ok a, w') => f a w'
  | (Raised e, w') => (Raised e, w')
  | (NoReply, w') => (NoReply, w')
  | (OutOfFuel, w') => (OutOfFuel, w')
  end.

Definition raise {A} (c : ExnClass) (detail : string) : M A :=
  λ w, (Raised {| exn_class := c; exn_detail := detail |}, w).

Definition out_of_fuel {A} : M A := λ w, (OutOfFuel, w).

(** [try: body except Exception as e: handler e]. *)
Definition try_except {A} (body : M A) (handler : Exn → M A) : M A :=
  λ w,
  match body w with
  | (Raised e, w') => handler e w'
  | r => r
  end.

Definition get_self : M OpenAIChatbot := λ w, (Ok (self w), w).

Definition with_history (h : list Message) (w : World) : World :=
  {| self := set_conversation_history h (self w);
     service := service w;
     trace := trace w |}.

Definition put_history (h : list Message) : M unit :=
  λ w, (Ok tt, with_history h w).

Definition with_event (e : Event) (w : World) : World :=
  {| self := self w;
     service := service w;
     trace := trace w ++ [e] |}.

Definition emit (e : Event) : M unit :=
  λ w, (Ok tt, with_event e w).

(** ** Python list and string operations *)

(** [l.pop(i)] for [0 <= i]. *)
Definition list_pop (i : nat) : M Message :=
  s ← get_self;
  match conversation_history s !! i with
  | Some m => put_history (delete i (conversation_history s));; mret m
  | None => raise IndexError "pop index out of range"
  end.

(** [l[:k]], where a negative [k] counts from the end. *)
Definition slice_to {A} (k : Z) (l : list A) : list A :=
  if bool_decide (0 ≤ k) then take (Z.to_nat k) l
  else take (Z.to_nat (Z.of_nat (length l) + k)) l.

(** [s[-1]]. *)
Definition str_last (s : string) : option ascii :=
  match String.length s with
  | O => None
  | S n => String.get n s
  end.

(** [c not in {".", "!", "?"}]. *)
Definition not_terminal (c : ascii) : bool :=
  negb (Ascii.eqb c "." || Ascii.eqb c "!" || Ascii.eqb c "?").

(** ** [count_tokens] *)

Definition count_tokens (messages : list Message) : Z :=
  foldr (λ message acc, count_tokens_text (content message) + acc) 0 messages.

(** ** [__init__] *)

(** The messages that [if l: target.extend(l)] adds: none when [l] is
    [None] (or empty). *)
Definition truthy_list {A} (l : option (list A)) : list A :=
  match l with
  | Some l => l
  | None => []
  end.

(** The constructor.  [max_token_size or default] takes the default for
    [None] and for [0]; [error_callback] is a parameter that no statement
    of the body reads, so the object gets no such attribute. *)
Definition __init__
    (personality_primer : list Message)
    (use_large_model : bool)
    (initial_messages_arg messages : option (list Message))
    (functions_arg : option (list string))
    (functions_callable_arg : option (gmap string (Args → HandlerOutcome)))
    (max_token_size_arg : option Z)
    (trim_message_callback_arg error_callback_arg : option Callable)
    (response_token_size_arg : option Z) : OpenAIChatbot :=
  let initial := personality_primer ++ truthy_list initial_messages_arg in
  {| model := if use_large_model then "gpt-3.5-turbo-16k" else "gpt-3.5-turbo";
     max_token_size :=
       match max_token_size_arg with
       | Some m => if bool_decide (m = 0)
                   then (if use_large_model then 16000 else 4000)
                   else m
       | None => if use_large_model then 16000 else 4000
       end;
     trim_message_callback := trim_message_callback_arg;
     response_token_size := response_token_size_arg;
     functions := functions_arg;
     functions_callable := functions_callable_arg;
     initial_messages := initial;
     conversation_history := initial ++ truthy_list messages;
     error_callback := None |}.

(** ** [create_response] *)

(** The next reply of the service, if it sends one. *)
Definition receive : M Reply :=
  λ w,
  match service w with
  | r :: rest => (Ok r, {| self := self w; service := rest; trace := trace w |})
  | [] => (NoReply, w)
  end.

(** The arguments that [create_response] passes for the chatbot [s]. *)
Definition request_of (s : OpenAIChatbot) : Request :=
  {| req_model := model s;
     req_messages := conversation_history s;
     req_functions := functions s;
     req_max_tokens := response_token_size s |}.

Definition create_response (site : CallSite) : M Reply :=
  s ← get_self;
  emit (EvRequest site (request_of s));;
  receive.

(** ** [update_conversation_history] *)

(** [available_tokens < self.response_token_size]. *)
Definition below_reserve (available_tokens : Z) : M bool :=
  s ← get_self;
  match response_token_size s with
  | Some r => mret (bool_decide (available_tokens < r))
  | None =>
      raise TypeError
        "'<' not supported between instances of 'int' and 'NoneType'"
  end.

(** [len(self.conversation_history) > len(self.initial_messages) + 1]. *)
Definition several_active (s : OpenAIChatbot) : bool :=
  bool_decide (length (initial_messages s) + 1 < length (conversation_history s))%nat.

(** [len(self.conversation_history) == len(self.initial_messages) + 1]. *)
Definition single_active (s : OpenAIChatbot) : bool :=
  bool_decide (length (conversation_history s) = length (initial_messages s) + 1)%nat.

(** The body of the loop when its inner test holds: the [pop], the new
    count and the flag. *)
Definition evict (callback_invoked : bool) : M (Z * bool) :=
  s ← get_self;
  list_pop (length (initial_messages s) + 1);;
  s ← get_self;
  let total_tokens := count_tokens (conversation_history s) in
  let available_tokens := max_token_size s - total_tokens in
  mret (available_tokens,
        if negb callback_invoked && bool_decide (is_Some (trim_message_callback s))
        then true else callback_invoked).

(** The [while] loop; [fuel] bounds the number of evictions. *)
Fixpoint trim_loop (fuel : nat) (available_tokens : Z) (callback_invoked : bool)
  : M (Z * bool) :=
  over ← below_reserve available_tokens;
  if over : bool then
    s ← get_self;
    if several_active s then
      match fuel with
      | O => out_of_fuel
      | S fuel' =>
          '(available_tokens, callback_invoked) ← evict callback_invoked;
          trim_loop fuel' available_tokens callback_invoked
      end
    else mret (available_tokens, callback_invoked)
  else mret (available_tokens, callback_invoked).

(** The [elif] branch: the last message is cut. *)
Definition truncate_last (available_tokens : Z) : M Z :=
  s ← get_self;
  match last (conversation_history s), response_token_size s with
  | Some m, Some r =>
      let user_message := content m in
      let text_tokens := tokenize user_message in
      let available_tokens_for_message := available_tokens - r in
      if bool_decide (available_tokens_for_message < Z.of_nat (length text_tokens)) then
        let user_message :=
          String.concat "" (slice_to available_tokens_for_message text_tokens) in
        put_history
          (<[pred (length (conversation_history s)) :=
               {| role := role m; content := user_message; name := name m |}]>
             (conversation_history s));;
        s ← get_self;
        match trim_message_callback s with
        | Some cb => emit (EvTrim cb (conversation_history s))
        | None => mret tt
        end;;
        mret r
      else mret available_tokens
  | None, _ => raise IndexError "list index out of range"
  | _, None =>
      raise TypeError "unsupported operand type(s) for -: 'int' and 'NoneType'"
  end.

(** The dict that is appended. *)
Definition new_message (message_content role : string) (name : option string)
  : Message :=
  if String.eqb role "function"
  then {| role := role; content := message_content; name := Some name |}
  else {| role := role; content := message_content; name := None |}.

Definition update_conversation_history
    (message_content : option string) (role : string) (name : option string)
  : M Z :=
  match message_content with
  | Some c =>
      s ← get_self;
      put_history (conversation_history s ++ [new_message c role name])
  | None => mret tt
  end;;
  s ← get_self;
  let total_tokens := count_tokens (conversation_history s) in
  let available_tokens := max_token_size s - total_tokens in
  let callback_invoked := false in
  if several_active s then
    '(available_tokens, callback_invoked) ←
      trim_loop (length (conversation_history s)) available_tokens callback_invoked;
    s ← get_self;
    match trim_message_callback s with
    | Some cb =>
        if callback_invoked : bool
        then emit (EvTrim cb (conversation_history s))
        else mret tt
    | None => mret tt
    end;;
    mret available_tokens
  else if single_active s then
    over ← below_reserve available_tokens;
    if over : bool then truncate_last available_tokens
    else mret available_tokens
  else mret available_tokens.

(** ** [rollback] *)

Definition rollback : M unit :=
  s ← get_self;
  match last (conversation_history s) with
  | Some _ =>
      put_history (take (pred (length (conversation_history s)))
                        (conversation_history s))
  | None => raise IndexError "pop from empty list"
  end.

(** ** [generate_response] and [respond] *)

(** The text of the [TypeError] of [reply += None]: the name of the type
    is between double quotes. *)
Definition double_quote : ascii := ascii_of_nat 34.

Definition concatenate_error : string :=
  "can only concatenate str (not "
  +:+ String double_quote ("NoneType" +:+ String double_quote ") to str").

(** The end of [generate_response], from the reading of [reply] on:
    the test of the last character and the continuation. *)
Definition finish_reply (reply : option string) : M string :=
  match reply with
  | None => raise TypeError "'NoneType' object is not subscriptable"
  | Some reply =>
      match str_last reply with
      | None => raise IndexError "string index out of range"
      | Some c =>
          if not_terminal c then
            available_tokens ←
              update_conversation_history (Some reply) "assistant" None;
            if bool_decide (0 < available_tokens) then
              continuation_response ← create_response ContinuationRequest;
              match reply_content continuation_response with
              | Some continuation_reply => mret (reply +:+ continuation_reply)
              | None => raise TypeError concatenate_error
              end
            else mret reply
          else mret reply
      end
  end.

Definition not_recognized (func_name : string) : string :=
  "Function " +:+ func_name +:+ " is not recognized.".

Definition apology_request (func_name : string) : string :=
  "An error occurred when trying to execute the function '" +:+ func_name
  +:+ "'. Please tell the user and apologize. (Don't ask to troubleshoot)".

(** The body of [respond], over the computation that generates. *)
Definition respond_with (generate : M string) (user_message : string)
  : M string :=
  update_conversation_history (Some user_message) "user" None;;
  generate.

(** The [except] clause of [generate_response], over the computation
    that generates: the callback, [rollback] and [respond]. *)
Definition on_function_error (generate : M string) (func_name : string)
    (e : Exn) : M string :=
  s ← get_self;
  match error_callback s with
  | None =>
      raise AttributeError
        "'OpenAIChatbot' object has no attribute 'error_callback'"
  | Some configured =>
      match configured with
      | Some cb => emit (EvError cb func_name (exn_detail e))
      | None => mret tt
      end;;
      rollback;;
      respond_with generate (apology_request func_name)
  end.

(** [generate_response]; [fuel] bounds the depth of the recursion, each
    level of which makes one request. *)
Fixpoint generate_response_fuel (fuel : nat) : M string :=
  match fuel with
  | O => out_of_fuel
  | S fuel' =>
      response ← create_response FirstRequest;
      match function_call response with
      | Some func =>
          let func_name := fc_name func in
          match json_loads (fc_arguments func) with
          | None => raise JSONDecodeError "Expecting value"
          | Some func_args =>
              s ← get_self;
              match functions_callable s with
              | None =>
                  raise TypeError "argument of type 'NoneType' is not iterable"
              | Some registry =>
                  match registry !! func_name with
                  | Some handler =>
                      try_except
                        (match handler func_args with
                         | Raises detail => raise HandlerException detail
                         | Returns func_result =>
                             update_conversation_history
                               func_result "function" (Some func_name);;
                             generate_response_fuel fuel'
                         end)
                        (on_function_error (generate_response_fuel fuel')
                                           func_name)
                  | None =>
                      emit (EvPrint (not_recognized func_name));;
                      finish_reply (reply_content response)
                  end
              end
          end
      | None => finish_reply (reply_content response)
      end
  end.

(** Every level of the recursion consumes a reply of the service, so
    one more level than there are replies is enough. *)
Definition generate_response : M string :=
  λ w, generate_response_fuel (S (length (service w))) w.

Definition respond (user_message : string) : M string :=
  respond_with generate_response user_message.

(** ** [add_messages] and [get_conversation] *)

Fixpoint add_messages (messages : list string) : M unit :=
  match messages with
  | [] => mret tt
  | message :: messages =>
      update_conversation_history (Some message) "user" None;;
      add_messages messages
  end.

Definition get_conversation (s : OpenAIChatbot) : list Message :=
  drop (length (initial_messages s)) (conversation_history s).

End Controller.

(** ** A tokenizer and a decoder to run the controller on *)

Fixpoint characters (s : string) : list string :=
  match s with
  | EmptyString => []
  | String c rest => String c EmptyString :: characters rest
  end.

(** One token per character. *)
Definition char_tokenizer : Tokenizer := {|
  count_tokens_text := λ s, Z.of_nat (String.length s);
  tokenize := characters
|}.

(** The arguments are kept as text; the empty text is not JSON. *)
Definition text_decoder : JsonDecoder := {|
  Args := string;
  json_loads := λ s, if String.eqb s "" then None else Some s
|}.

(** ** Scenarios *)

Section Scenarios.
Local Existing Instance char_tokenizer.
Local Existing Instance text_decoder.

Definition said (role content : string) : Message :=
  {| role := role; content := content; name := None |}.

(** The world of a chatbot that has not talked yet, with the replies
    that the service will give. *)
Definition fresh_world (s : OpenAIChatbot) (replies : list Reply) : World :=
  {| self := s; service := replies; trace := [] |}.

Definition text_reply (text : string) : Reply :=
  {| function_call := None; reply_content := Some text |}.

Definition call_reply (func_name arguments : string) : Reply :=
  {| function_call := Some {| fc_name := func_name; fc_arguments := arguments |};
     reply_content := None |}.

(** A primer of two tokens. *)
Definition primer_pp : list Message := [said "system" "pp"].

(** Budget 12 with 2 reserved and no message yet: two messages of four
    tokens fit after the primer, three do not. *)
Definition eviction_order_world : World :=
  fresh_world
    (__init__ primer_pp false None None
       None None (Some 12) (Some "on_trim") None (Some 2))
    [].

(** Budget 12 with 5 reserved; a message of eight tokens is there and
    another one of eight tokens comes. *)
Definition oversized_world : World :=
  fresh_world
    (__init__ primer_pp false None
       (Some [said "user" "aaaaaaaa"])
       None None (Some 12) (Some "on_trim") None (Some 5))
    [].

(** Budget 12 with 5 reserved; the constructor is given two messages of
    eight tokens each. *)
Definition overfull_world : World :=
  fresh_world
    (__init__ primer_pp false None
       (Some [said "user" "aaaaaaaa"; said "user" "bbbbbbbb"])
       None None (Some 12) (Some "on_trim") None (Some 5))
    [].

(** Budget 50 with 20 reserved and a primer of ten tokens. *)
Definition truncation_world : World :=
  fresh_world
    (__init__ [said "system" "0123456789"] false None None
       None None (Some 50) (Some "on_trim") None (Some 20))
    [].

(** A text of 45 tokens. *)
Definition long_text : string :=
  "The quick brown fox jumps over the lazy dog!!".

(** A registry whose only function, [lookup], raises. *)
Definition failing_registry : gmap string (Args → HandlerOutcome) :=
  {[ "lookup" := λ _, Raises "boom" ]}.

Definition lookup_bot : OpenAIChatbot :=
  __init__ [said "system" "Be kind."] false None None
    (Some ["lookup"]) (Some failing_registry)
    (Some 100) None (Some "on_error") (Some 20).

(** The service asks for [lookup], then would apologize. *)
Definition lookup_world : World :=
  fresh_world lookup_bot [call_reply "lookup" "{}"; text_reply "Sorry."].

(** The service asks for [weather], which is not registered, and sends
    no content. *)
Definition weather_world : World :=
  fresh_world lookup_bot [call_reply "weather" "{}"].


End Scenarios.

(** ** Notions used in the statements *)

Section Notions.
Context `{Tokenizer} `{JsonDecoder}.

Implicit Types (w : World) (h : list Message).

(** The transcript after [k] evictions from [h], with [n] primer
    messages. *)
Definition after_evictions (n k : nat) h : list Message :=
  take (S n) h ++ drop (S n + k) h.

(** The three ways in which the loop can end. *)
Inductive LoopResult (fuel : nat) (a : Z) (ci : bool) w : Prop :=
| LoopDone (k : nat) (a' : Z) (r : Z)
    (Hk : (k ≤ length (conversation_history (self w))
               - S (length (initial_messages (self w))))%nat)
    (Hfuel : (k ≤ fuel)%nat)
    (Hr : response_token_size (self w) = Some r)
    (Hfirst : k ≠ O → a < r)
    (Ha : a' = if decide (k = O) then a
               else max_token_size (self w)
                    - count_tokens (after_evictions (length (initial_messages (self w))) k
                                      (conversation_history (self w))))
    (Hrun : trim_loop fuel a ci w
            = (Ok (a', ci || (bool_decide (k ≠ O)
                               && bool_decide (is_Some (trim_message_callback (self w))))),
               with_history (after_evictions (length (initial_messages (self w))) k
                               (conversation_history (self w))) w))
    (Hstop : r ≤ a'
             ∨ (length (conversation_history (self w)) - k
                ≤ S (length (initial_messages (self w))))%nat)
| LoopTypeError
    (Hr : response_token_size (self w) = None)
    (Hrun : trim_loop fuel a ci w
            = (Raised {| exn_class := TypeError;
                         exn_detail :=
                           "'<' not supported between instances of 'int' and 'NoneType'" |},
               w))
| LoopOutOfFuel
    (Hfuel : (fuel < length (conversation_history (self w))
                     - S (length (initial_messages (self w))))%nat)
    (Hrun : fst (trim_loop fuel a ci w) = OutOfFuel).

(** The transcript once [update_conversation_history] has appended. *)
Definition appended (message_content : option string) (role : string)
    (name : option string) h : list Message :=
  match message_content with
  | Some c => h ++ [new_message c role name]
  | None => h
  end.

(** The message [m] once [truncate_last] has cut it to the slice [k]. *)
Definition cut_message (m : Message) (k : Z) : Message :=
  {| role := role m;
     content := String.concat "" (slice_to k (tokenize (content m)));
     name := name m |}.

(** The world after [trim_message_callback], if there is one and [fires]
    holds, has been called. *)
Definition after_callback (fires : bool) w : World :=
  match trim_message_callback (self w) with
  | Some cb =>
      if fires then with_event (EvTrim cb (conversation_history (self w))) w
      else w
  | None => w
  end.

(** What [update_conversation_history] does without appending, from
    world [w]: [out] is returned and [w'] is the world afterwards. *)
Inductive UpdateCase w (out : Outcome Z) (w' : World) : Prop :=
| UpdEvicting (k : nat) (r a' : Z)
    (Hseveral : (S (length (initial_messages (self w)))
                 < length (conversation_history (self w)))%nat)
    (Hk : (k ≤ length (conversation_history (self w))
               - S (length (initial_messages (self w))))%nat)
    (Hr : response_token_size (self w) = Some r)
    (Ha : a' = if decide (k = O)
               then max_token_size (self w)
                    - count_tokens (conversation_history (self w))
               else max_token_size (self w)
                    - count_tokens (after_evictions (length (initial_messages (self w))) k
                                      (conversation_history (self w))))
    (Hfirst : k ≠ O →
              max_token_size (self w)
              - count_tokens (conversation_history (self w)) < r)
    (Hstop : r ≤ a'
             ∨ (length (conversation_history (self w)) - k
                = S (length (initial_messages (self w))))%nat)
    (Hout : out = Ok a')
    (Hw : w' = after_callback (bool_decide (k ≠ O))
                 (with_history
                    (after_evictions (length (initial_messages (self w))) k
                       (conversation_history (self w))) w))
| UpdTruncating (r : Z) (m : Message)
    (Hsingle : length (conversation_history (self w))
               = S (length (initial_messages (self w))))
    (Hr : response_token_size (self w) = Some r)
    (Hover : max_token_size (self w)
             - count_tokens (conversation_history (self w)) < r)
    (Hlast : conversation_history (self w) !! length (initial_messages (self w))
             = Some m)
    (Hout : out = Ok r)
    (Hw : w' = after_callback true
                 (with_history
                    (<[length (initial_messages (self w)) :=
                         cut_message m
                           (max_token_size (self w)
                            - count_tokens (conversation_history (self w)) - r)]>
                       (conversation_history (self w))) w))
| UpdUntouched
    (Hfits : (length (conversation_history (self w))
              ≤ length (initial_messages (self w)))%nat
             ∨ (length (conversation_history (self w))
                = S (length (initial_messages (self w)))
                ∧ ∃ r, response_token_size (self w) = Some r
                       ∧ r ≤ max_token_size (self w)
                             - count_tokens (conversation_history (self w))))
    (Hout : out = Ok (max_token_size (self w)
                      - count_tokens (conversation_history (self w))))
    (Hw : w' = w)
| UpdTypeError
    (Hactive : (length (initial_messages (self w))
                < length (conversation_history (self w)))%nat)
    (Hr : response_token_size (self w) = None)
    (Hout : out = Raised {| exn_class := TypeError;
                            exn_detail :=
                              "'<' not supported between instances of 'int' and 'NoneType'" |})
    (Hw : w' = w).

Definition is_continuation (e : Event) : bool :=
  match e with
  | EvRequest ContinuationRequest _ => true
  | _ => false
  end.

(** The number of continuation requests in a trace. *)
Fixpoint continuations (t : list Event) : nat :=
  match t with
  | [] => O
  | e :: t => ((if is_continuation e then 1 else 0) + continuations t)%nat
  end.

(** [m] adds at most [d] continuation requests to the trace, and keeps
    the attribute [error_callback] missing, when it is run on a chatbot
    that has no attribute [error_callback]. *)
Definition adds_continuations {A} (d : nat) (m : M A) : Prop :=
  ∀ w, error_callback (self w) = None →
       error_callback (self (m w).2) = None
       ∧ (continuations (trace (m w).2) ≤ continuations (trace w) + d)%nat.

(** [m] consumes replies of the service without adding any, and does
    not run out of fuel when fewer than [b] replies are left. *)
Definition bounded {A} (b : nat) (m : M A) : Prop :=
  ∀ w, (length (service (m w).2) ≤ length (service w))%nat
       ∧ ((length (service w) < b)%nat → (m w).1 ≠ OutOfFuel).

End Notions.

(** ** Further notions *)

Section FurtherNotions.
Context `{Tokenizer} `{JsonDecoder}.

(** The dict has the key ["name"] exactly when its role is
    ["function"]. *)
Definition named_iff_function (m : Message) : bool :=
  Bool.eqb (String.eqb (role m) "function")
           (match name m with Some _ => true | None => false end).

(** [update_conversation_history] followed by [rollback]. *)
Definition update_then_rollback (message_content : string) (role : string)
    (name : option string) : M unit :=
  update_conversation_history (Some message_content) role name;;
  rollback.

(** The world once a request has been sent from [w] and the service has
    answered, [rest] being the replies still to come. *)
Definition after_request (site : CallSite) (rest : list Reply) (w : World)
  : World :=
  {| self := self w;
     service := rest;
     trace := trace w ++ [EvRequest site (request_of (self w))] |}.

End FurtherNotions.

(** ** [util.py]: [roll_dice] *)

(** [random.randint]: the generator is a state that every draw
    advances. *)
Class RandomSource := {
  generator : Type;
  randint : Z → Z → generator → Z * generator
}.

Inductive DiceError :=
| ValueError (detail : string).

(** The dict that [roll_dice] returns. *)
Record Roll := {
  result : Z;
  rolls : list Z
}.

(** [max(l)], [min(l)] and [sum(l)]; the first two fail on an empty
    list. *)
Definition py_max (l : list Z) : option Z :=
  match l with
  | [] => None
  | x :: l => Some (foldr Z.max x l)
  end.

Definition py_min (l : list Z) : option Z :=
  match l with
  | [] => None
  | x :: l => Some (foldr Z.min x l)
  end.

Definition py_sum (l : list Z) : Z := foldr Z.add 0 l.

Section Dice.
Context `{RandomSource}.

(** [[random.randint(1, num_sides) for _ in range(count)]]; [randint]
    raises on an empty range. *)
Fixpoint roll_many (count : nat) (num_sides : Z) (g : generator)
  : DiceError + (list Z * generator) :=
  match count with
  | O => inr ([], g)
  | S count =>
      if bool_decide (num_sides < 1)
      then inl (ValueError "empty range for randrange()")
      else
        let '(x, g) := randint 1 num_sides g in
        match roll_many count num_sides g with
        | inr (xs, g) => inr (x :: xs, g)
        | inl e => inl e
        end
  end.

Definition roll_dice (num_sides num_dice modifier : Z)
    (advantage disadvantage : bool) (g : generator)
  : DiceError + (Roll * generator) :=
  if advantage && disadvantage
  then inl (ValueError "Can't roll with both advantage and disadvantage.")
  else
    let num_dice :=
      if advantage || disadvantage then Z.max 2 num_dice else num_dice in
    match roll_many (Z.to_nat num_dice) num_sides g with
    | inl e => inl e
    | inr (rolls, g) =>
        if advantage then
          match py_max rolls with
          | Some roll_result =>
              inr ({| result := roll_result + modifier; rolls := rolls |}, g)
          | None => inl (ValueError "max() arg is an empty sequence")
          end
        else if disadvantage then
          match py_min rolls with
          | Some roll_result =>
              inr ({| result := roll_result + modifier; rolls := rolls |}, g)
          | None => inl (ValueError "min() arg is an empty sequence")
          end
        else
          inr ({| result := py_sum rolls + modifier; rolls := rolls |}, g)
    end.

(** The number of dice that [roll_dice] rolls. *)
Definition dice_rolled (num_dice : Z) (advantage disadvantage : bool) : nat :=
  Z.to_nat (if advantage || disadvantage then Z.max 2 num_dice else num_dice).

(** What [random.randint] promises. *)
Definition randint_in_range : Prop :=
  ∀ a b g, a ≤ b → a ≤ (randint a b g).1 ≤ b.

End Dice.

(** A generator to run [roll_dice] on: a counter, whose value chooses
    the draw. *)
Definition counter_source : RandomSource := {|
  generator := Z;
  randint := λ a b g, (a + g `mod` (b - a + 1), g + 1)
|}.

(** ** The transcript as a list of shared dicts *)

(** In Python a transcript is a list of references to dicts, and the
    same dict can be in several places: [__init__] copies the list of the
    primer, not its dicts, and keeps the dicts of [messages].  Here the
    dicts live in a heap and the lists hold addresses, so that the
    assignment [self.conversation_history[-1]["content"] = ...] changes
    the dict wherever it is referenced.  Only the attributes that
    [update_conversation_history] reads are kept. *)
Module Shared.
Section Shared.
Context `{Tokenizer}.

Record Chatbot := {
  heap : nat → Message;
  next_address : nat;
  max_token_size : Z;
  trim_message_callback : option Callable;
  response_token_size : option Z;
  initial_messages : list nat;
  conversation_history : list nat;
  calls : list Event
}.

(** The heap [objects] with the dict [m] at address [a]. *)
Definition store (a : nat) (m : Message) (objects : nat → Message)
  : nat → Message :=
  λ b, if bool_decide (a = b) then m else objects b.

(** The dicts that a list of addresses refers to. *)
Definition contents (s : Chatbot) (messages : list nat) : list Message :=
  map (heap s) messages.

Definition set_conversation_history (h : list nat) (s : Chatbot) : Chatbot :=
  {| heap := heap s;
     next_address := next_address s;
     max_token_size := max_token_size s;
     trim_message_callback := trim_message_callback s;
     response_token_size := response_token_size s;
     initial_messages := initial_messages s;
     conversation_history := h;
     calls := calls s |}.

(** [d["content"] = text] on the dict at address [a]. *)
Definition set_content (a : nat) (text : string) (s : Chatbot) : Chatbot :=
  {| heap := store a {| role := role (heap s a);
                        content := text;
                        name := name (heap s a) |} (heap s);
     next_address := next_address s;
     max_token_size := max_token_size s;
     trim_message_callback := trim_message_callback s;
     response_token_size := response_token_size s;
     initial_messages := initial_messages s;
     conversation_history := conversation_history s;
     calls := calls s |}.

(** [self.conversation_history.append(new_message)], the new dict
    being created at the next address. *)
Definition append (new_message : Message) (s : Chatbot) : Chatbot :=
  {| heap := store (next_address s) new_message (heap s);
     next_address := S (next_address s);
     max_token_size := max_token_size s;
     trim_message_callback := trim_message_callback s;
     response_token_size := response_token_size s;
     initial_messages := initial_messages s;
     conversation_history := conversation_history s ++ [next_address s];
     calls := calls s |}.

(** [self.trim_message_callback()], if there is a callback. *)
Definition call_trim_callback (s : Chatbot) : Chatbot :=
  match trim_message_callback s with
  | Some cb =>
      {| heap := heap s;
         next_address := next_address s;
         max_token_size := max_token_size s;
         trim_message_callback := trim_message_callback s;
         response_token_size := response_token_size s;
         initial_messages := initial_messages s;
         conversation_history := conversation_history s;
         calls := calls s ++ [EvTrim cb (contents s (conversation_history s))] |}
  | None => s
  end.

(** [__init__], on dicts that the caller has created in [objects]
    (addresses below [next]). *)
Definition __init__ (objects : nat → Message) (next : nat)
    (personality_primer : list nat)
    (use_large_model : bool)
    (initial_messages_arg messages : option (list nat))
    (max_token_size_arg : option Z)
    (trim_message_callback_arg : option Callable)
    (response_token_size_arg : option Z) : Chatbot :=
  let initial := personality_primer ++ truthy_list initial_messages_arg in
  {| heap := objects;
     next_address := next;
     max_token_size :=
       match max_token_size_arg with
       | Some m => if bool_decide (m = 0)
                   then (if use_large_model then 16000 else 4000)
                   else m
       | None => if use_large_model then 16000 else 4000
       end;
     trim_message_callback := trim_message_callback_arg;
     response_token_size := response_token_size_arg;
     initial_messages := initial;
     conversation_history := initial ++ truthy_list messages;
     calls := [] |}.

Definition tokens_used (s : Chatbot) : Z :=
  count_tokens (contents s (conversation_history s)).

Definition type_error_reserve : Exn :=
  {| exn_class := TypeError;
     exn_detail :=
       "'<' not supported between instances of 'int' and 'NoneType'" |}.

(** The [while] loop. *)
Fixpoint trim_loop (fuel : nat) (available_tokens : Z) (callback_invoked : bool)
    (s : Chatbot) : Outcome (Z * bool) * Chatbot :=
  match response_token_size s with
  | None => (Raised type_error_reserve, s)
  | Some r =>
      if bool_decide (available_tokens < r) then
        if bool_decide (length (initial_messages s) + 1
                        < length (conversation_history s))%nat
        then
          match fuel with
          | O => (OutOfFuel, s)
          | S fuel =>
              let s :=
                set_conversation_history
                  (delete (length (initial_messages s) + 1)%nat
                          (conversation_history s)) s in
              let total_tokens := tokens_used s in
              let available_tokens := max_token_size s - total_tokens in
              let callback_invoked :=
                if negb callback_invoked
                   && bool_decide (is_Some (trim_message_callback s))
                then true else callback_invoked in
              trim_loop fuel available_tokens callback_invoked s
          end
        else (Ok (available_tokens, callback_invoked), s)
      else (Ok (available_tokens, callback_invoked), s)
  end.

(** The [elif] branch, its test included. *)
Definition truncate_last (available_tokens : Z) (s : Chatbot)
  : Outcome Z * Chatbot :=
  match response_token_size s with
  | None => (Raised type_error_reserve, s)
  | Some r =>
      if bool_decide (available_tokens < r) then
        match last (conversation_history s) with
        | None =>
            (Raised {| exn_class := IndexError;
                       exn_detail := "list index out of range" |}, s)
        | Some a =>
            let user_message := content (heap s a) in
            let text_tokens := tokenize user_message in
            let available_tokens_for_message := available_tokens - r in
            if bool_decide (available_tokens_for_message
                            < Z.of_nat (length text_tokens))
            then
              let user_message :=
                String.concat ""
                  (slice_to available_tokens_for_message text_tokens) in
              (Ok r, call_trim_callback (set_content a user_message s))
            else (Ok available_tokens, s)
        end
      else (Ok available_tokens, s)
  end.

Definition update_conversation_history
    (message_content : option string) (role : string) (name : option string)
    (s : Chatbot) : Outcome Z * Chatbot :=
  let s :=
    match message_content with
    | Some c => append (new_message c role name) s
    | None => s
    end in
  let total_tokens := tokens_used s in
  let available_tokens := max_token_size s - total_tokens in
  if bool_decide (length (initial_messages s) + 1
                  < length (conversation_history s))%nat
  then
    match trim_loop (length (conversation_history s)) available_tokens false s
    with
    | (Ok (available_tokens, callback_invoked), s) =>
        (Ok available_tokens,
         if callback_invoked then call_trim_callback s else s)
    | (Raised e, s) => (Raised e, s)
    | (NoReply, s) => (NoReply, s)
    | (OutOfFuel, s) => (OutOfFuel, s)
    end
  else if bool_decide (length (conversation_history s)
                       = length (initial_messages s) + 1)%nat
  then truncate_last available_tokens s
  else (Ok available_tokens, s).

End Shared.
End Shared.

(** ** The transcript seen through its contents *)

Section Representation.
Context `{Tokenizer} `{JsonDecoder}.

(** The chatbot of world [w] holds the contents of the lists of [s],
    with the same settings. *)
Definition represents (s : Shared.Chatbot) (w : World) : Prop :=
  Shared.contents s (Shared.initial_messages s) = initial_messages (self w)
  ∧ Shared.contents s (Shared.conversation_history s)
    = conversation_history (self w)
  ∧ Shared.max_token_size s = max_token_size (self w)
  ∧ Shared.response_token_size s = response_token_size (self w)
  ∧ Shared.trim_message_callback s = trim_message_callback (self w).

(** The dict of the last message is referenced nowhere else: not by the
    primer, not earlier in the transcript. *)
Definition last_unshared (s : Shared.Chatbot) : Prop :=
  ∀ h a, Shared.conversation_history s = h ++ [a] →
         (a ∉ Shared.initial_messages s) ∧ (a ∉ h).

(** Every address in use is below the address of the next dict. *)
Definition allocated (s : Shared.Chatbot) : Prop :=
  Forall (λ a, (a < Shared.next_address s)%nat)
    (Shared.initial_messages s ++ Shared.conversation_history s).

End Representation.

(** ** Further scenarios *)

Section FurtherScenarios.
Local Existing Instance char_tokenizer.
Local Existing Instance text_decoder.


(** A chatbot built with the default of every optional argument. *)
Definition default_world : World :=
  fresh_world
    (__init__ primer_pp false None None None None None None None None)
    [].

(** The service answers with a full sentence. *)
Definition done_world : World :=
  fresh_world lookup_bot [text_reply "Done."].

(** The service answers without content and without function call. *)
Definition silent_world : World :=
  fresh_world lookup_bot [{| function_call := None; reply_content := None |}].

(** The service calls [lookup] with arguments that are not JSON. *)
Definition malformed_world : World :=
  fresh_world lookup_bot [call_reply "lookup" ""].

(** The service calls [weather], which is not registered, and sends a
    content. *)
Definition sunny_world : World :=
  fresh_world lookup_bot
    [{| function_call := Some {| fc_name := "weather"; fc_arguments := "{}" |};
        reply_content := Some "It is sunny." |}].

(** A registry whose function [roll] returns ["7"]; the service calls
    it and then answers. *)
Definition rolling_registry : gmap string (Args → HandlerOutcome) :=
  {[ "roll" := λ _, Returns (Some "7") ]}.

Definition roll_world : World :=
  fresh_world
    (__init__ [said "system" "Be kind."] false None None
       (Some ["roll"]) (Some rolling_registry)
       (Some 100) None None (Some 20))
    [call_reply "roll" "{}"; text_reply "You rolled 7."].

(** The primer and the messages given to the constructor are the same
    dict, of eight tokens; budget 12 with 5 reserved. *)
Definition shared_objects : nat → Message :=
  Shared.store 0 (said "system" "aaaaaaaa") (λ _, said "" "").

Definition shared_bot : Shared.Chatbot :=
  Shared.__init__ shared_objects 1 [0%nat] false None (Some [0%nat])
    (Some 12) None (Some 5).

(** A primer of two tokens and, in a dict of its own, a message of
    twelve; budget 12 with 5 reserved. *)
Definition separate_objects : nat → Message :=
  Shared.store 0 (said "system" "pp")
    (Shared.store 1 (said "user" "aaaaaaaaaaaa") (λ _, said "" "")).

Definition separate_bot : Shared.Chatbot :=
  Shared.__init__ separate_objects 2 [0%nat] false None (Some [1%nat])
    (Some 12) None (Some 5).



(** The contents of [separate_bot], as a world. *)
Definition separate_world : World :=
  fresh_world
    (__init__ primer_pp false None (Some [said "user" "aaaaaaaaaaaa"])
       None None (Some 12) None None (Some 5))
    [].

End FurtherScenarios.

(** * Properties *)

Section Properties.
Context `{Tokenizer} `{JsonDecoder}.

Implicit Types (w : World) (s : OpenAIChatbot) (h : list Message).

(** ** The monad *)

Lemma bind_ok {A B} (m : M A) (f : A → M B) w a w' :
  m w = (Ok a, w') → (m ≫= f) w = f a w'.
Proof. intros E. unfold mbind, M_bind. now rewrite E. Qed.

Lemma bind_raised {A B} (m : M A) (f : A → M B) w e w' :
  m w = (Raised e, w') → (m ≫= f) w = (Raised e, w').
Proof. intros E. unfold mbind, M_bind. now rewrite E. Qed.

Lemma with_history_id w : with_history (conversation_history (self w)) w = w.
Proof. now destruct w as [[] ? ?]. Qed.

(** ** Removing the message after the first active one *)

Lemma delete_take_drop {A} (i : nat) (l : list A) :
  delete i l = take i l ++ drop (S i) l.
Proof.
  revert i. induction l as [|x l IH]; intros [|i]; simpl; try reflexivity.
  now rewrite IH.
Qed.

Lemma evicted_again {A} (n k : nat) (l : list A) :
  (S n < length l)%nat →
  take (S n) (delete (S n) l) ++ drop (S n + k) (delete (S n) l)
  = take (S n) l ++ drop (S n + S k) l.
Proof.
  intros Hlen. rewrite !delete_take_drop.
  rewrite take_app_le by (rewrite length_take; lia).
  rewrite take_take, Nat.min_id.
  rewrite drop_app_ge by (rewrite length_take; lia).
  rewrite length_take, drop_drop. do 2 f_equal. lia.
Qed.

(** ** The eviction loop *)

Lemma after_evictions_0 n h : after_evictions n 0 h = h.
Proof. unfold after_evictions. rewrite Nat.add_0_r. apply take_drop. Qed.

Lemma length_after_evictions n k h :
  (k ≤ length h - S n)%nat →
  length (after_evictions n k h) = (length h - k)%nat.
Proof.
  intros Hk. unfold after_evictions.
  rewrite length_app, length_take, length_drop. lia.
Qed.


Ltac run_monad :=
  unfold mbind, M_bind, mret, M_ret, get_self, put_history, emit, raise,
    out_of_fuel; simpl.

Lemma evict_several ci w :
  several_active (self w) = true →
  let s := self w in
  let h' := delete (S (length (initial_messages s))) (conversation_history s) in
  evict ci w
  = (Ok (max_token_size s - count_tokens h',
         ci || bool_decide (is_Some (trim_message_callback s))),
     with_history h' w).
Proof.
  intros Hs. unfold several_active in Hs. apply bool_decide_eq_true in Hs.
  simpl. unfold evict, list_pop.
  destruct (lookup_lt_is_Some_2 (conversation_history (self w))
              (length (initial_messages (self w)) + 1)%nat Hs) as [m Hm].
  run_monad. rewrite Hm. run_monad.
  replace (length (initial_messages (self w)) + 1)%nat
    with (S (length (initial_messages (self w)))) by lia.
  do 3 f_equal. now destruct ci, (bool_decide _).
Qed.

Lemma trim_loop_unfold fuel a ci w :
  trim_loop fuel a ci w
  = match response_token_size (self w) with
    | Some r =>
        if bool_decide (a < r) then
          if several_active (self w) then
            match fuel with
            | O => (OutOfFuel, w)
            | S fuel' =>
                trim_loop fuel'
                  (max_token_size (self w)
                   - count_tokens (delete (S (length (initial_messages (self w))))
                                     (conversation_history (self w))))
                  (ci || bool_decide (is_Some (trim_message_callback (self w))))
                  (with_history (delete (S (length (initial_messages (self w))))
                                   (conversation_history (self w))) w)
            end
          else (Ok (a, ci), w)
        else (Ok (a, ci), w)
    | None =>
        (Raised {| exn_class := TypeError;
                   exn_detail :=
                     "'<' not supported between instances of 'int' and 'NoneType'" |},
         w)
    end.
Proof.
  destruct fuel; simpl; unfold below_reserve; run_monad;
    destruct (response_token_size (self w)); run_monad; try reflexivity;
    destruct (bool_decide _); try reflexivity;
    destruct (several_active (self w)) eqn:Hs; try reflexivity.
  unfold mbind, M_bind. rewrite (evict_several ci w Hs). reflexivity.
Qed.

Lemma trim_loop_result fuel : ∀ a ci w, LoopResult fuel a ci w.
Proof.
  induction fuel as [|fuel IH]; intros a ci w.
  - pose proof (trim_loop_unfold O a ci w) as U.
    destruct (response_token_size (self w)) as [r|] eqn:Hr.
    + destruct (bool_decide (a < r)) eqn:Hlt.
      * destruct (several_active (self w)) eqn:Hs.
        -- apply LoopOutOfFuel.
           ++ unfold several_active in Hs. apply bool_decide_eq_true in Hs. lia.
           ++ now rewrite U.
        -- apply (LoopDone _ _ _ _ O a r); try lia; try assumption; try congruence.
           ++ reflexivity.
           ++ rewrite U, after_evictions_0, with_history_id.
              now rewrite andb_false_l, orb_false_r.
           ++ right. unfold several_active in Hs.
              apply bool_decide_eq_false in Hs. lia.
      * apply (LoopDone _ _ _ _ O a r); try lia; try assumption; try congruence.
        -- reflexivity.
        -- rewrite U, after_evictions_0, with_history_id.
           now rewrite andb_false_l, orb_false_r.
        -- left. apply bool_decide_eq_false in Hlt. lia.
    + now apply LoopTypeError.
  - pose proof (trim_loop_unfold (S fuel) a ci w) as U.
    destruct (response_token_size (self w)) as [r|] eqn:Hr;
      [|now apply LoopTypeError].
    destruct (bool_decide (a < r)) eqn:Hlt.
    + destruct (several_active (self w)) eqn:Hs.
      * set (n := length (initial_messages (self w))) in *.
        set (h := conversation_history (self w)) in *.
        assert (Hlen : (S n < length h)%nat).
        { unfold several_active in Hs. apply bool_decide_eq_true in Hs.
          subst n h. lia. }
        assert (Hdel : length (delete (S n) h) = (length h - 1)%nat)
          by (apply length_delete, lookup_lt_is_Some_2; lia).
        assert (Hagain : ∀ k, after_evictions n k (delete (S n) h)
                              = after_evictions n (S k) h)
          by (intros k; apply evicted_again; assumption).
        destruct (IH (max_token_size (self w) - count_tokens (delete (S n) h))
                     (ci || bool_decide (is_Some (trim_message_callback (self w))))
                     (with_history (delete (S n) h) w))
          as [k a' r' Hk Hfuel Hr' _ Ha Hrun Hstop|Hr' Hrun|Hfuel Hrun].
        -- simpl in Hk, Hr', Ha, Hrun, Hstop. fold n in Hk, Ha, Hrun, Hstop.
           rewrite Hdel in *. rewrite Hagain in *.
           assert (r' = r) as -> by congruence.
           apply (LoopDone _ _ _ _ (S k) a' r); fold n h;
             try lia; try assumption.
           ++ intros _. now apply bool_decide_eq_true in Hlt.
           ++ rewrite decide_False by lia.
              destruct (decide (k = O)) as [->|]; [|exact Ha].
              rewrite Ha. do 2 f_equal. rewrite <- Hagain.
              symmetry. apply after_evictions_0.
           ++ rewrite U, Hrun. f_equal. f_equal.
              destruct ci, (bool_decide (is_Some _)), (bool_decide (k ≠ O));
                reflexivity.
        -- simpl in Hr'. congruence.
        -- simpl in Hfuel. fold n in Hfuel. rewrite Hdel in Hfuel.
           apply LoopOutOfFuel; fold n h; [lia|]. now rewrite U.
      * apply (LoopDone _ _ _ _ O a r); try lia; try assumption; try congruence.
        -- reflexivity.
        -- rewrite U, after_evictions_0, with_history_id.
           now rewrite andb_false_l, orb_false_r.
        -- right. unfold several_active in Hs.
           apply bool_decide_eq_false in Hs. lia.
    + apply (LoopDone _ _ _ _ O a r); try lia; try assumption; try congruence.
      * reflexivity.
      * rewrite U, after_evictions_0, with_history_id.
        now rewrite andb_false_l, orb_false_r.
      * left. apply bool_decide_eq_false in Hlt. lia.
Qed.

(** ** [update_conversation_history], case by case *)

Lemma update_appended mc role name w :
  update_conversation_history mc role name w
  = update_conversation_history None role name
      (with_history (appended mc role name (conversation_history (self w))) w).
Proof.
  destruct mc as [c|]; simpl.
  - reflexivity.
  - now rewrite with_history_id.
Qed.

Lemma update_None_unfold role name w :
  update_conversation_history None role name w
  = let s := self w in
    let a0 := max_token_size s - count_tokens (conversation_history s) in
    if several_active s then
      match trim_loop (length (conversation_history s)) a0 false w with
      | (Ok (a', ci'), w1) =>
          (Ok a', after_callback ci' w1)
      | (Raised e, w1) => (Raised e, w1)
      | (NoReply, w1) => (NoReply, w1)
      | (OutOfFuel, w1) => (OutOfFuel, w1)
      end
    else if single_active s then
      match response_token_size s with
      | Some r =>
          if bool_decide (a0 < r) then truncate_last a0 w else (Ok a0, w)
      | None =>
          (Raised {| exn_class := TypeError;
                     exn_detail :=
                       "'<' not supported between instances of 'int' and 'NoneType'" |},
           w)
      end
    else (Ok a0, w).
Proof.
  unfold update_conversation_history. run_monad.
  destruct (several_active (self w)).
  - run_monad.
    destruct (trim_loop _ _ _ w) as [[[a' ci']| | |] w1]; try reflexivity.
    unfold after_callback.
    destruct (trim_message_callback (self w1)); [destruct ci'|]; reflexivity.
  - destruct (single_active (self w)); [|reflexivity].
    unfold below_reserve. run_monad.
    destruct (response_token_size (self w)); run_monad; [|reflexivity].
    now destruct (bool_decide _).
Qed.

Lemma truncate_last_single a0 r w :
  length (conversation_history (self w)) = S (length (initial_messages (self w))) →
  response_token_size (self w) = Some r →
  a0 < r →
  ∃ m, conversation_history (self w) !! length (initial_messages (self w)) = Some m
       ∧ truncate_last a0 w
         = (Ok r,
            after_callback true
              (with_history
                 (<[length (initial_messages (self w)) := cut_message m (a0 - r)]>
                    (conversation_history (self w))) w)).
Proof.
  intros Hlen Hr Hlt.
  destruct (lookup_lt_is_Some_2 (conversation_history (self w))
              (length (initial_messages (self w)))) as [m Hm]; [lia|].
  exists m. split; [assumption|].
  unfold truncate_last. run_monad.
  rewrite last_lookup, Hlen. simpl. rewrite Hm, Hr.
  rewrite bool_decide_eq_true_2 by lia.
  run_monad. unfold after_callback. simpl.
  destruct (trim_message_callback (self w)); reflexivity.
Qed.

Lemma update_None_case role name w :
  UpdateCase w (update_conversation_history None role name w).1
               (update_conversation_history None role name w).2.
Proof.
  rewrite update_None_unfold. simpl.
  set (n := length (initial_messages (self w))).
  set (h := conversation_history (self w)).
  set (a0 := max_token_size (self w) - count_tokens h).
  unfold several_active, single_active. fold n h.
  destruct (bool_decide (n + 1 < length h)%nat) eqn:Hsev.
  - apply bool_decide_eq_true in Hsev.
    destruct (trim_loop_result (length h) a0 false w)
      as [k a' r Hk Hfuel Hr Hfirst Ha Hrun Hstop|Hr Hrun|Hfuel Hrun].
    + fold n h in Hk, Hfuel, Hr, Ha, Hrun, Hstop.
      rewrite Hrun. simpl.
      apply (UpdEvicting _ _ _ k r a'); fold n h a0;
        try assumption; try lia; try reflexivity.
      unfold after_callback. simpl.
      destruct (trim_message_callback (self w)); [|reflexivity].
      rewrite (bool_decide_eq_true_2 (is_Some (Some _))) by eauto.
      now rewrite andb_true_r.
    + rewrite Hrun. simpl. apply UpdTypeError; fold n h; try reflexivity;
        try assumption. lia.
    + fold n h in Hfuel. lia.
  - apply bool_decide_eq_false in Hsev.
    destruct (bool_decide (length h = n + 1)%nat) eqn:Hsing.
    + apply bool_decide_eq_true in Hsing.
      destruct (response_token_size (self w)) as [r|] eqn:Hr.
      * destruct (bool_decide (a0 < r)) eqn:Hlt.
        -- apply bool_decide_eq_true in Hlt.
           destruct (truncate_last_single a0 r w) as (m & Hm & ->);
             try assumption; [fold n h; lia|].
           simpl. apply (UpdTruncating _ _ _ r m); fold n h a0;
             try assumption; try reflexivity. lia.
        -- apply bool_decide_eq_false in Hlt.
           apply UpdUntouched; fold n h a0; try reflexivity.
           right. split; [lia|]. exists r. split; [assumption|lia].
      * apply UpdTypeError; fold n h; try reflexivity; try assumption. lia.
    + apply bool_decide_eq_false in Hsing.
      apply UpdUntouched; fold n h a0; try reflexivity. left. lia.
Qed.

Lemma trim_loop_more_fuel fuel : ∀ a ci w extra,
  (trim_loop fuel a ci w).1 ≠ OutOfFuel →
  trim_loop (fuel + extra) a ci w = trim_loop fuel a ci w.
Proof.
  induction fuel as [|fuel IH]; intros a ci w extra Hne;
    rewrite (trim_loop_unfold (_ + extra)); rewrite trim_loop_unfold in Hne |- *;
    destruct (response_token_size (self w)); try reflexivity;
    destruct (bool_decide _); try reflexivity;
    destruct (several_active (self w)); try reflexivity.
  - now simpl in Hne.
  - simpl. now apply IH.
Qed.

Lemma trim_loop_enough_fuel extra a ci w :
  let needed := (length (conversation_history (self w))
                 - S (length (initial_messages (self w))))%nat in
  (trim_loop (needed + extra) a ci w).1 ≠ OutOfFuel
  ∧ trim_loop (needed + extra) a ci w = trim_loop needed a ci w.
Proof.
  intros needed.
  assert (Hn : (trim_loop needed a ci w).1 ≠ OutOfFuel).
  { destruct (trim_loop_result needed a ci w)
      as [k a' r _ _ _ _ _ Hrun _|_ Hrun|Hfuel _].
    - now rewrite Hrun.
    - now rewrite Hrun.
    - subst needed. lia. }
  rewrite trim_loop_more_fuel by assumption. now split.
Qed.

Lemma after_callback_self b w : self (after_callback b w) = self w.
Proof.
  unfold after_callback. destruct (trim_message_callback (self w)); [|reflexivity].
  now destruct b.
Qed.

Lemma after_callback_service b w : service (after_callback b w) = service w.
Proof.
  unfold after_callback. destruct (trim_message_callback (self w)); [|reflexivity].
  now destruct b.
Qed.

Lemma after_callback_trace b w :
  trace (after_callback b w)
  = trace w ++ match trim_message_callback (self w) with
               | Some cb =>
                   if b then [EvTrim cb (conversation_history (self w))] else []
               | None => []
               end.
Proof.
  unfold after_callback. destruct (trim_message_callback (self w)).
  - destruct b; simpl; [reflexivity|]. now rewrite app_nil_r.
  - now rewrite app_nil_r.
Qed.

Lemma take_after_evictions n k h :
  take (S n) (after_evictions n k h) = take (S n) h.
Proof.
  unfold after_evictions.
  destruct (decide (S n ≤ length h)%nat) as [Hle|Hgt].
  - rewrite take_app_le by (rewrite length_take; lia).
    rewrite take_take. f_equal. lia.
  - rewrite drop_ge by lia. rewrite app_nil_r, take_take. f_equal. lia.
Qed.

Lemma take_shorter {A} (n m : nat) (l l' : list A) :
  (n ≤ m)%nat → take m l = take m l' → take n l = take n l'.
Proof.
  intros Hle E.
  rewrite <- (Nat.min_l n m Hle), <- !take_take. now rewrite E.
Qed.

(** In every case the settings, the primer and the service are kept, and
    so are the first [n] messages of the transcript. *)
Lemma update_None_frame role name w :
  let w' := (update_conversation_history None role name w).2 in
  self w' = set_conversation_history (conversation_history (self w')) (self w)
  ∧ service w' = service w
  ∧ take (length (initial_messages (self w))) (conversation_history (self w'))
    = take (length (initial_messages (self w))) (conversation_history (self w)).
Proof.
  intros w'. subst w'.
  destruct (update_None_case role name w)
    as [k r a' _ _ _ _ _ _ _ ->|r m _ _ _ _ _ ->|_ _ ->|_ _ _ ->].
  - rewrite after_callback_self, after_callback_service. simpl.
    repeat split.
    apply (take_shorter _ (S (length (initial_messages (self w))))); [lia|].
    apply take_after_evictions.
  - rewrite after_callback_self, after_callback_service. simpl.
    repeat split. apply take_insert_ge. lia.
  - repeat split. now destruct w as [[] ? ?].
  - repeat split. now destruct w as [[] ? ?].
Qed.

(** ** Termination *)

Lemma evict_step ci w :
  match evict ci w with
  | (Ok _, w1) =>
      (length (conversation_history (self w1))
       < length (conversation_history (self w)))%nat
      ∧ (length (initial_messages (self w)) + 1
         ≤ length (conversation_history (self w1)))%nat
      ∧ initial_messages (self w1) = initial_messages (self w)
  | (_, w1) => w1 = w ∧ several_active (self w) = false
  end.
Proof.
  destruct (several_active (self w)) eqn:Hs.
  - rewrite (evict_several ci w Hs). simpl.
    unfold several_active in Hs. apply bool_decide_eq_true in Hs.
    rewrite length_delete by (apply lookup_lt_is_Some_2; lia).
    repeat split; lia.
  - unfold several_active in Hs. apply bool_decide_eq_false in Hs.
    unfold evict, list_pop. run_monad.
    rewrite (lookup_ge_None_2 (conversation_history (self w))) by lia.
    now run_monad.
Qed.

Lemma update_returns_or_raises mc role name w :
  match response_token_size (self w) with
  | Some _ => ∃ a, (update_conversation_history mc role name w).1 = Ok a
  | None =>
      (∃ a, (update_conversation_history mc role name w).1 = Ok a)
      ∨ (∃ e, (update_conversation_history mc role name w).1 = Raised e)
  end.
Proof.
  rewrite update_appended.
  set (w0 := with_history _ w).
  assert (Hr0 : response_token_size (self w0) = response_token_size (self w))
    by reflexivity.
  destruct (update_None_case role name w0)
    as [k r a' _ _ Hr _ _ _ -> _|r m _ Hr _ _ -> _|_ -> _|_ Hr -> _];
    rewrite <- Hr0; try rewrite Hr; eauto.
  destruct (response_token_size (self w0)); eauto.
Qed.

(** C10.  The eviction loop terminates.  One iteration either pops a
    message, which makes the transcript strictly shorter and leaves it
    with at least one message after the primer, or (outside the guard of
    the loop) fails without changing anything; so as many iterations as
    there are messages after the first active one always suffice, more
    fuel changes nothing, and [update_conversation_history] always
    returns or raises: it returns whenever [response_token_size] is a
    number. *)
Theorem update_is_total mc role name a ci extra w :
  let n := length (initial_messages (self w)) in
  let h := conversation_history (self w) in
  match evict ci w with
  | (Ok _, w1) =>
      (length (conversation_history (self w1)) < length h)%nat
      ∧ (n + 1 ≤ length (conversation_history (self w1)))%nat
      ∧ initial_messages (self w1) = initial_messages (self w)
  | (_, w1) => w1 = w ∧ several_active (self w) = false
  end
  ∧ (trim_loop (length h - S n + extra) a ci w).1 ≠ OutOfFuel
  ∧ trim_loop (length h - S n + extra) a ci w = trim_loop (length h - S n) a ci w
  ∧ match response_token_size (self w) with
    | Some _ => ∃ a', (update_conversation_history mc role name w).1 = Ok a'
    | None =>
        (∃ a', (update_conversation_history mc role name w).1 = Ok a')
        ∨ (∃ e, (update_conversation_history mc role name w).1 = Raised e)
    end.
Proof.
  intros n h. split; [apply evict_step|].
  destruct (trim_loop_enough_fuel extra a ci w) as [Hne Heq].
  repeat split; try assumption. apply update_returns_or_raises.
Qed.

(** ** The trim callback *)

(** C9.  One call of [update_conversation_history] adds to the trace at
    most one call of the trim callback, whatever the number of evicted
    messages.  Without a callback nothing is added; with one, a call in
    which the transcript lost at least one message adds exactly one
    call, and the callback then sees the final transcript: it runs after
    the loop. *)
Theorem on_trim_at_most_once mc role name w :
  let h0 := appended mc role name (conversation_history (self w)) in
  let w' := (update_conversation_history mc role name w).2 in
  ∃ fired,
    trace w' = trace w ++ fired
    ∧ (length fired ≤ 1)%nat
    ∧ match trim_message_callback (self w) with
      | Some cb =>
          if bool_decide (length (conversation_history (self w')) < length h0)%nat
          then fired = [EvTrim cb (conversation_history (self w'))]
          else fired = [] ∨ fired = [EvTrim cb (conversation_history (self w'))]
      | None => fired = []
      end.
Proof.
  intros h0 w'. subst w'. rewrite update_appended. fold h0.
  set (w0 := with_history h0 w).
  assert (Hcb : trim_message_callback (self w0) = trim_message_callback (self w))
    by reflexivity.
  assert (Hh0 : conversation_history (self w0) = h0) by reflexivity.
  assert (Ht0 : trace w0 = trace w) by reflexivity.
  destruct (update_None_case role name w0)
    as [k r a' Hsev Hk _ _ _ _ _ ->|r m Hsing _ _ _ _ ->|_ _ ->|_ _ _ ->];
    rewrite ?after_callback_trace, ?after_callback_self; simpl;
    rewrite ?Hcb, ?Ht0, ?Hh0 in *.
  - rewrite length_after_evictions by assumption.
    destruct (trim_message_callback (self w)) as [cb|].
    + destruct (decide (k = O)) as [->|Hk0].
      * eexists. split; [reflexivity|]. simpl. split; [lia|].
        rewrite bool_decide_eq_false_2 by lia. now left.
      * rewrite (bool_decide_eq_true_2 (k ≠ O)) by assumption.
        eexists. split; [reflexivity|]. simpl. split; [lia|].
        destruct (bool_decide _); auto.
    + exists []. simpl. repeat split. lia.
  - rewrite length_insert.
    destruct (trim_message_callback (self w)) as [cb|].
    + eexists. split; [reflexivity|]. simpl. split; [lia|].
      rewrite bool_decide_eq_false_2 by lia. now right.
    + exists []. simpl. repeat split. lia.
  - exists []. rewrite app_nil_r. simpl. repeat split; [lia|].
    destruct (trim_message_callback (self w)); [|reflexivity].
    rewrite bool_decide_eq_false_2 by lia. now left.
  - exists []. rewrite app_nil_r. simpl. repeat split; [lia|].
    destruct (trim_message_callback (self w)); [|reflexivity].
    rewrite bool_decide_eq_false_2 by lia. now left.
Qed.

(** ** The primer *)

Lemma update_frame mc role name w :
  let w' := (update_conversation_history mc role name w).2 in
  self w' = set_conversation_history (conversation_history (self w')) (self w)
  ∧ service w' = service w
  ∧ take (length (initial_messages (self w))) (conversation_history (self w'))
    = take (length (initial_messages (self w)))
        (appended mc role name (conversation_history (self w))).
Proof.
  simpl. rewrite update_appended.
  destruct (update_None_frame role name
              (with_history (appended mc role name (conversation_history (self w))) w))
    as (Hself & Hservice & Htake).
  simpl in *. repeat split; assumption.
Qed.


(** ** Calls without content *)

(** C4, as amended.  A call with no content appends nothing, so the
    transcript never grows.  Its length is unchanged when the active
    segment holds at most one message; the whole world is unchanged, and
    [max_token_size] minus the tokens used is returned, when that
    difference is at least [response_token_size]; and the transcript gets
    shorter when the active segment holds several messages and the
    difference is below [response_token_size]. *)
Theorem update_None_length role name w :
  let h := conversation_history (self w) in
  let available := max_token_size (self w) - count_tokens h in
  let out := (update_conversation_history None role name w).1 in
  let w' := (update_conversation_history None role name w).2 in
  (length (conversation_history (self w')) ≤ length h)%nat
  ∧ (if several_active (self w) then True
     else length (conversation_history (self w')) = length h)
  ∧ match response_token_size (self w) with
    | Some r =>
        if bool_decide (r ≤ available) then w' = w ∧ out = Ok available
        else if several_active (self w)
             then (length (conversation_history (self w')) < length h)%nat
             else True
    | None => w' = w
    end.
Proof.
  intros h available out w'. subst out w' h available.
  unfold several_active.
  destruct (update_None_case role name w)
    as [k r a' Hsev Hk Hr Ha Hfirst Hstop -> ->|r m Hsing Hr Hover _ -> ->
       |Hfits -> ->|Hact Hr -> ->];
    rewrite ?after_callback_self; simpl.
  - rewrite length_after_evictions by assumption.
    rewrite bool_decide_eq_true_2 by lia. rewrite Hr.
    split; [lia|]. split; [exact I|].
    destruct (bool_decide (r ≤ _)) eqn:Hfit.
    + apply bool_decide_eq_true in Hfit.
      destruct (decide (k = O)) as [->|Hk0]; [|specialize (Hfirst Hk0); lia].
      rewrite after_evictions_0. unfold after_callback. simpl.
      rewrite with_history_id. simpl in Ha. subst a'.
      destruct (trim_message_callback (self w)); now split.
    + apply bool_decide_eq_false in Hfit.
      destruct (decide (k = O)) as [->|Hk0]; [|lia].
      simpl in Ha. subst a'. lia.
  - rewrite length_insert. rewrite Hr.
    rewrite (bool_decide_eq_false_2 (_ < _)%nat) by lia.
    rewrite bool_decide_eq_false_2 by lia.
    repeat split. lia.
  - split; [lia|]. split; [now destruct (bool_decide _)|].
    destruct (response_token_size (self w)) as [r|]; [|reflexivity].
    destruct (bool_decide (r ≤ _)); [now split|].
    destruct Hfits as [Hle|[Heq _]];
      rewrite bool_decide_eq_false_2 by lia; exact I.
  - split; [lia|]. split; [now destruct (bool_decide _)|].
    now rewrite Hr.
Qed.

(** ** Cutting a single message *)

Lemma count_tokens_app h1 h2 :
  count_tokens (h1 ++ h2) = count_tokens h1 + count_tokens h2.
Proof.
  induction h1 as [|m h1 IH]; simpl; [reflexivity|]. rewrite IH. lia.
Qed.

(** C6.  With [max_token_size = 50] and [response_token_size = 20], when
    the transcript (once the message of the call, if any, is appended) is
    a primer of 10 tokens followed by one message of 45 tokens, and the
    tokenizer counts at most [k] tokens in the text made of the first [k]
    tokens of that message, [update_conversation_history] cuts the
    message, leaves at most 30 tokens in the transcript and returns 20. *)
Theorem truncation_example mc role name w m :
  max_token_size (self w) = 50 →
  response_token_size (self w) = Some 20 →
  appended mc role name (conversation_history (self w))
  = initial_messages (self w) ++ [m] →
  count_tokens (initial_messages (self w)) = 10 →
  count_tokens_text (content m) = 45 →
  length (tokenize (content m)) = 45%nat →
  (∀ k : nat,
     count_tokens_text (String.concat "" (take k (tokenize (content m))))
     ≤ Z.of_nat k) →
  let out := (update_conversation_history mc role name w).1 in
  let w' := (update_conversation_history mc role name w).2 in
  out = Ok 20
  ∧ conversation_history (self w')
    = initial_messages (self w) ++ [cut_message m (-25)]
  ∧ count_tokens (conversation_history (self w')) ≤ 30.
Proof.
  intros Hmax Hres Hh Hprimer Hm Htok Hprefix out w'. subst out w'.
  rewrite update_appended. rewrite Hh.
  set (w0 := with_history _ w).
  assert (Hh0 : conversation_history (self w0) = initial_messages (self w) ++ [m])
    by reflexivity.
  assert (Hn0 : initial_messages (self w0) = initial_messages (self w))
    by reflexivity.
  assert (Hm0 : max_token_size (self w0) = 50) by exact Hmax.
  assert (Hr0 : response_token_size (self w0) = Some 20) by exact Hres.
  assert (Hcount : count_tokens (conversation_history (self w0)) = 55).
  { rewrite Hh0, count_tokens_app, Hprimer. simpl. lia. }
  assert (Hlen : length (conversation_history (self w0))
                 = S (length (initial_messages (self w)))).
  { rewrite Hh0, length_app. simpl. lia. }
  destruct (update_None_case role name w0)
    as [k r a' Hsev _ _ _ _ _ _ _|r m' _ Hr _ Hlast -> ->|Hfits _ _|_ Hr _ _];
    rewrite ?Hn0, ?Hm0, ?Hcount in *.
  - lia.
  - assert (r = 20) as -> by congruence.
    rewrite Hh0 in Hlast.
    rewrite lookup_app_r, Nat.sub_diag in Hlast by lia.
    simpl in Hlast. injection Hlast as <-.
    rewrite after_callback_self. simpl. fold w0. rewrite ?Hn0, ?Hm0, ?Hcount, ?Hh0.
    replace (50 - 55 - 20) with (-25) by lia.
    assert (Hcut : <[length (initial_messages (self w)) := cut_message m (-25)]>
                     (initial_messages (self w) ++ [m])
                   = initial_messages (self w) ++ [cut_message m (-25)]).
    { rewrite insert_app_r_alt, Nat.sub_diag by lia. reflexivity. }
    rewrite Hcut. repeat split.
    rewrite count_tokens_app, Hprimer. simpl.
    unfold slice_to. rewrite bool_decide_eq_false_2 by lia.
    rewrite Htok. specialize (Hprefix 20%nat).
    replace (Z.to_nat (Z.of_nat 45 + -25)) with 20%nat by lia. lia.
  - destruct Hfits as [Hle|[_ (r & Hr & Hge)]]; [lia|].
    assert (r = 20) by congruence. lia.
  - congruence.
Qed.

(** ** Requests and continuations *)

Lemma create_response_unfold site w :
  create_response site w
  = match service w with
    | r :: rest =>
        (Ok r, {| self := self w;
                  service := rest;
                  trace := trace w ++ [EvRequest site (request_of (self w))] |})
    | [] => (NoReply, with_event (EvRequest site (request_of (self w))) w)
    end.
Proof.
  unfold create_response, receive. run_monad. now destruct (service w).
Qed.

Lemma continuations_app t1 t2 :
  continuations (t1 ++ t2) = (continuations t1 + continuations t2)%nat.
Proof. induction t1 as [|e t1 IH]; simpl; [reflexivity|]. rewrite IH. lia. Qed.

Lemma adds_weaken {A} d d' (m : M A) :
  (d ≤ d')%nat → adds_continuations d m → adds_continuations d' m.
Proof. intros Hle Hm w Hw. destruct (Hm w Hw). split; [assumption|lia]. Qed.

Lemma adds_ret {A} (a : A) : adds_continuations 0 (mret a).
Proof. intros w Hw. simpl. split; [assumption|lia]. Qed.

Lemma adds_raise {A} c detail : adds_continuations 0 (raise (A:=A) c detail).
Proof. intros w Hw. simpl. split; [assumption|lia]. Qed.

Lemma adds_out_of_fuel {A} : adds_continuations 0 (out_of_fuel (A:=A)).
Proof. intros w Hw. simpl. split; [assumption|lia]. Qed.

Lemma adds_get_self : adds_continuations 0 get_self.
Proof. intros w Hw. simpl. split; [assumption|lia]. Qed.

Lemma adds_bind {A B} d1 d2 (m : M A) (f : A → M B) :
  adds_continuations d1 m → (∀ a, adds_continuations d2 (f a)) →
  adds_continuations (d1 + d2) (m ≫= f).
Proof.
  intros Hm Hf w Hw. destruct (Hm w Hw) as [He Hc].
  unfold mbind, M_bind.
  destruct (m w) as [[a|e| |] w1]; simpl in *; try (split; [assumption|lia]).
  destruct (Hf a w1 He). split; [assumption|lia].
Qed.

Lemma adds_try {A} d1 d2 (body : M A) (handler : Exn → M A) :
  adds_continuations d1 body → (∀ e, adds_continuations d2 (handler e)) →
  adds_continuations (d1 + d2) (try_except body handler).
Proof.
  intros Hm Hf w Hw. destruct (Hm w Hw) as [He Hc].
  unfold try_except.
  destruct (body w) as [[a|e| |] w1]; simpl in *; try (split; [assumption|lia]).
  destruct (Hf e w1 He). split; [assumption|lia].
Qed.

Lemma adds_emit e : is_continuation e = false → adds_continuations 0 (emit e).
Proof.
  intros He w Hw. simpl. split; [assumption|].
  rewrite continuations_app. simpl. rewrite He. lia.
Qed.

Lemma adds_create_response site :
  adds_continuations (if site is ContinuationRequest then 1 else 0)
    (create_response site).
Proof.
  intros w Hw. rewrite create_response_unfold.
  destruct (service w); simpl; (split; [assumption|]);
    rewrite continuations_app; simpl; destruct site; simpl; lia.
Qed.

Lemma adds_update mc role name :
  adds_continuations 0 (update_conversation_history mc role name).
Proof.
  intros w Hw.
  destruct (update_frame mc role name w) as (Hself & _ & _).
  split; [now rewrite Hself|].
  rewrite update_appended.
  set (w0 := with_history _ w).
  assert (Ht0 : trace w0 = trace w) by reflexivity.
  destruct (update_None_case role name w0)
    as [k r a' _ _ _ _ _ _ _ ->|r m _ _ _ _ _ ->|_ _ ->|_ _ _ ->];
    rewrite ?after_callback_trace, ?continuations_app; simpl;
    rewrite ?Ht0; try lia;
    destruct (trim_message_callback (self w)); try destruct (bool_decide _);
    simpl; lia.
Qed.

Lemma adds_rollback : adds_continuations 0 rollback.
Proof.
  intros w Hw. unfold rollback. run_monad.
  destruct (last _); simpl; (split; [assumption|lia]).
Qed.

Lemma adds_finish_reply reply : adds_continuations 1 (finish_reply reply).
Proof.
  unfold finish_reply.
  destruct reply as [reply|]; [|apply (adds_weaken 0); [lia|apply adds_raise]].
  destruct (str_last reply) as [c|];
    [|apply (adds_weaken 0); [lia|apply adds_raise]].
  destruct (not_terminal c); [|apply (adds_weaken 0); [lia|apply adds_ret]].
  apply (adds_bind 0 1); [apply adds_update|]. intros a.
  destruct (bool_decide _); [|apply (adds_weaken 0); [lia|apply adds_ret]].
  apply (adds_bind 1 0); [apply (adds_create_response ContinuationRequest)|].
  intros r. destruct (reply_content r); [apply adds_ret|apply adds_raise].
Qed.

Lemma adds_generate_response_fuel fuel :
  adds_continuations 1 (generate_response_fuel fuel).
Proof.
  induction fuel as [|fuel IH]; simpl.
  - apply (adds_weaken 0); [lia|apply adds_out_of_fuel].
  - apply (adds_bind 0 1); [apply (adds_create_response FirstRequest)|].
    intros response.
    destruct (function_call response) as [func|]; [|apply adds_finish_reply].
    destruct (json_loads _) as [func_args|];
      [|apply (adds_weaken 0); [lia|apply adds_raise]].
    apply (adds_bind 0 1); [apply adds_get_self|]. intros s.
    destruct (functions_callable s) as [registry|];
      [|apply (adds_weaken 0); [lia|apply adds_raise]].
    destruct (registry !! fc_name func) as [handler|].
    + apply (adds_try 1 0).
      * destruct (handler func_args);
          [|apply (adds_weaken 0); [lia|apply adds_raise]].
        apply (adds_bind 0 1); [apply adds_update|]. intros _. exact IH.
      * intros e w Hw. unfold on_function_error. run_monad. rewrite Hw.
        simpl. split; [assumption|lia].
    + apply (adds_bind 0 1); [now apply adds_emit|]. intros _.
      apply adds_finish_reply.
Qed.

Lemma update_never_stuck mc role name w :
  (∃ a, (update_conversation_history mc role name w).1 = Ok a)
  ∨ (∃ e, (update_conversation_history mc role name w).1 = Raised e).
Proof.
  pose proof (update_returns_or_raises mc role name w) as Hu.
  destruct (response_token_size (self w)); [left|]; exact Hu.
Qed.


(** ** What the loop removes *)

(** With several active messages the loop removes messages from index
    [len(initial_messages) + 1] on: the primer and the oldest active
    message stay, and no message is cut. *)
Lemma eviction_spares_oldest mc role name w :
  let n := length (initial_messages (self w)) in
  let h0 := appended mc role name (conversation_history (self w)) in
  let w' := (update_conversation_history mc role name w).2 in
  (S n < length h0)%nat →
  ∃ k, conversation_history (self w') = take (S n) h0 ++ drop (S n + k) h0.
Proof.
  intros n h0 w' Hsev. subst w'. rewrite update_appended. fold h0.
  set (w0 := with_history h0 w).
  assert (Hh0 : conversation_history (self w0) = h0) by reflexivity.
  assert (Hn0 : length (initial_messages (self w0)) = n) by reflexivity.
  destruct (update_None_case role name w0)
    as [k r a' _ _ _ _ _ _ _ ->|r m Hsing _ _ _ _ _|Hfits _ ->|_ _ _ ->];
    rewrite ?Hh0, ?Hn0 in *.
  - exists k. now rewrite after_callback_self.
  - lia.
  - exists O. rewrite Nat.add_0_r. now rewrite take_drop.
  - exists O. rewrite Nat.add_0_r. now rewrite take_drop.
Qed.

(** ** Failures in the response loop *)

Lemma init_drops_error_callback primer large initial messages functions_arg
    registry max_size on_trim on_error reserve :
  error_callback
    (__init__ primer large initial messages functions_arg registry max_size
       on_trim on_error reserve) = None.
Proof. reflexivity. Qed.

(** When the handler raises on a chatbot without the attribute
    [error_callback], the [except] clause itself raises: nothing is
    rolled back, no callback runs and the caller gets the exception. *)
Lemma handler_failure_escapes fuel w response rest func func_args registry
    handler detail :
  error_callback (self w) = None →
  service w = response :: rest →
  function_call response = Some func →
  json_loads (fc_arguments func) = Some func_args →
  functions_callable (self w) = Some registry →
  registry !! fc_name func = Some handler →
  handler func_args = Raises detail →
  generate_response_fuel (S fuel) w
  = (Raised {| exn_class := AttributeError;
               exn_detail :=
                 "'OpenAIChatbot' object has no attribute 'error_callback'" |},
     {| self := self w;
        service := rest;
        trace := trace w ++ [EvRequest FirstRequest (request_of (self w))] |}).
Proof.
  intros Hcb Hsv Hfc Hargs Hreg Hh Hraise. simpl.
  unfold mbind at 1, M_bind. rewrite create_response_unfold, Hsv.
  rewrite Hfc, Hargs. run_monad. rewrite Hreg, Hh. unfold try_except.
  rewrite Hraise. unfold on_function_error. run_monad. now rewrite Hcb.
Qed.

(** A call of a function that is not registered, on a reply without
    content, fails at [reply[-1]]. *)
Lemma unknown_function_without_content fuel w response rest func func_args
    registry :
  service w = response :: rest →
  function_call response = Some func →
  reply_content response = None →
  json_loads (fc_arguments func) = Some func_args →
  functions_callable (self w) = Some registry →
  registry !! fc_name func = None →
  generate_response_fuel (S fuel) w
  = (Raised {| exn_class := TypeError;
               exn_detail := "'NoneType' object is not subscriptable" |},
     {| self := self w;
        service := rest;
        trace := trace w
                 ++ [EvRequest FirstRequest (request_of (self w))]
                 ++ [EvPrint (not_recognized (fc_name func))] |}).
Proof.
  intros Hsv Hfc Hcontent Hargs Hreg Hh. simpl.
  unfold mbind at 1, M_bind. rewrite create_response_unfold, Hsv.
  rewrite Hfc, Hargs. run_monad. rewrite Hreg, Hh. run_monad.
  rewrite Hcontent. unfold with_event. simpl. now rewrite <- app_assoc.
Qed.

(** With a content that ends a sentence, the unknown name is printed and
    the content returned. *)
Lemma unknown_function_with_content fuel w response rest func func_args
    registry text c :
  service w = response :: rest →
  function_call response = Some func →
  reply_content response = Some text →
  str_last text = Some c →
  not_terminal c = false →
  json_loads (fc_arguments func) = Some func_args →
  functions_callable (self w) = Some registry →
  registry !! fc_name func = None →
  generate_response_fuel (S fuel) w
  = (Ok text,
     {| self := self w;
        service := rest;
        trace := trace w
                 ++ [EvRequest FirstRequest (request_of (self w))]
                 ++ [EvPrint (not_recognized (fc_name func))] |}).
Proof.
  intros Hsv Hfc Hcontent Hlast Hnt Hargs Hreg Hh. simpl.
  unfold mbind at 1, M_bind. rewrite create_response_unfold, Hsv.
  rewrite Hfc, Hargs. run_monad. rewrite Hreg, Hh. run_monad.
  rewrite Hcontent. unfold finish_reply. rewrite Hlast, Hnt.
  unfold with_event. run_monad. now rewrite <- app_assoc.
Qed.

(** ** Fuel of the response loop *)

Lemma bounded_ret {A} b (a : A) : bounded b (mret a).
Proof. intros w. simpl. split; [lia|discriminate]. Qed.

Lemma bounded_raise {A} b c detail : bounded b (raise (A:=A) c detail).
Proof. intros w. simpl. split; [lia|discriminate]. Qed.

Lemma bounded_get_self b : bounded b get_self.
Proof. intros w. simpl. split; [lia|discriminate]. Qed.

Lemma bounded_emit b e : bounded b (emit e).
Proof. intros w. simpl. split; [lia|discriminate]. Qed.

Lemma bounded_bind {A B} b (m : M A) (f : A → M B) :
  bounded b m → (∀ a, bounded b (f a)) → bounded b (m ≫= f).
Proof.
  intros Hm Hf w. destruct (Hm w) as [Hlen Hfuel].
  unfold mbind, M_bind.
  destruct (m w) as [[a|e| |] w1]; simpl in *;
    try (split; [assumption
                |first [intros _; discriminate
                       |intros Hb; destruct (Hfuel Hb eq_refl)]]).
  destruct (Hf a w1) as [Hlen1 Hfuel1]. split; [lia|].
  intros Hb. apply Hfuel1. lia.
Qed.

Lemma bounded_try {A} b (body : M A) (handler : Exn → M A) :
  bounded b body → (∀ e, bounded b (handler e)) →
  bounded b (try_except body handler).
Proof.
  intros Hm Hf w. destruct (Hm w) as [Hlen Hfuel].
  unfold try_except.
  destruct (body w) as [[a|e| |] w1]; simpl in *;
    try (split; [assumption
                |first [intros _; discriminate
                       |intros Hb; destruct (Hfuel Hb eq_refl)]]).
  destruct (Hf e w1) as [Hlen1 Hfuel1]. split; [lia|].
  intros Hb. apply Hfuel1. lia.
Qed.

Lemma bounded_create_response {A} b site (k : Reply → M A) :
  (∀ r, bounded b (k r)) → bounded (S b) (create_response site ≫= k).
Proof.
  intros Hk w. unfold mbind, M_bind. rewrite create_response_unfold.
  destruct (service w) as [|r rest] eqn:Hsv; simpl.
  - rewrite Hsv. split; [simpl; lia|discriminate].
  - destruct (Hk r {| self := self w; service := rest;
                       trace := trace w ++ [EvRequest site (request_of (self w))] |})
      as [Hlen Hfuel]. simpl in *.
    split; [lia|]. intros Hb. apply Hfuel. lia.
Qed.

Lemma bounded_weaken {A} b b' (m : M A) :
  (b' ≤ b)%nat → bounded b m → bounded b' m.
Proof.
  intros Hle Hm w. destruct (Hm w) as [Hlen Hfuel].
  split; [assumption|]. intros Hb. apply Hfuel. lia.
Qed.

Lemma bounded_update b mc role name :
  bounded b (update_conversation_history mc role name).
Proof.
  intros w. destruct (update_frame mc role name w) as (_ & Hsv & _).
  split; [simpl in Hsv; rewrite Hsv; lia|]. intros _.
  destruct (update_never_stuck mc role name w) as [[a Ha]|[e He]];
    congruence.
Qed.

Lemma bounded_rollback b : bounded b rollback.
Proof.
  intros w. unfold rollback. run_monad.
  destruct (last _); simpl; (split; [lia|discriminate]).
Qed.

Lemma bounded_finish_reply b reply : bounded b (finish_reply reply).
Proof.
  unfold finish_reply.
  destruct reply as [reply|]; [|apply bounded_raise].
  destruct (str_last reply) as [c|]; [|apply bounded_raise].
  destruct (not_terminal c); [|apply bounded_ret].
  apply bounded_bind; [apply bounded_update|]. intros a.
  destruct (bool_decide _); [|apply bounded_ret].
  apply (bounded_weaken (S b)); [lia|].
  apply bounded_create_response. intros r.
  destruct (reply_content r); [apply bounded_ret|apply bounded_raise].
Qed.

Lemma bounded_generate_response_fuel fuel :
  bounded fuel (generate_response_fuel fuel).
Proof.
  induction fuel as [|fuel IH]; simpl.
  - intros w. simpl. split; lia.
  - apply bounded_create_response. intros response.
    destruct (function_call response) as [func|]; [|apply bounded_finish_reply].
    destruct (json_loads _) as [func_args|]; [|apply bounded_raise].
    apply bounded_bind; [apply bounded_get_self|]. intros s.
    destruct (functions_callable s) as [registry|]; [|apply bounded_raise].
    destruct (registry !! fc_name func) as [handler|].
    + apply bounded_try.
      * destruct (handler func_args); [|apply bounded_raise].
        apply bounded_bind; [apply bounded_update|]. intros _. exact IH.
      * intros e. unfold on_function_error.
        apply bounded_bind; [apply bounded_get_self|]. intros s'.
        destruct (error_callback s') as [configured|]; [|apply bounded_raise].
        apply bounded_bind.
        { destruct configured; [apply bounded_emit|apply bounded_ret]. }
        intros _. apply bounded_bind; [apply bounded_rollback|]. intros _.
        unfold respond_with.
        apply bounded_bind; [apply bounded_update|]. intros _. exact IH.
    + apply bounded_bind; [apply bounded_emit|]. intros _.
      apply bounded_finish_reply.
Qed.

(** The fuel that [generate_response] takes is enough: it never runs
    out, and neither does [respond]. *)
Lemma generate_response_has_fuel w :
  (generate_response w).1 ≠ OutOfFuel.
Proof.
  unfold generate_response.
  apply (bounded_generate_response_fuel (S (length (service w))) w). lia.
Qed.

Lemma respond_has_fuel user_message w :
  (respond user_message w).1 ≠ OutOfFuel.
Proof.
  unfold respond, respond_with, mbind, M_bind.
  destruct (update_never_stuck (Some user_message) "user" None w)
    as [[a Ha]|[e He]];
    destruct (update_conversation_history (Some user_message) "user" None w)
      as [out w1]; simpl in *; subst out; [|discriminate].
  apply generate_response_has_fuel.
Qed.

(** More fuel than needed does not change the result. *)
Lemma bind_more_fuel {A B} (m : M A) (f f' : A → M B) w :
  (∀ a w1, (f a w1).1 ≠ OutOfFuel → f' a w1 = f a w1) →
  ((m ≫= f) w).1 ≠ OutOfFuel →
  (m ≫= f') w = (m ≫= f) w.
Proof.
  intros Hf. unfold mbind, M_bind.
  destruct (m w) as [[a|e| |] w1]; try reflexivity. apply Hf.
Qed.

Lemma try_more_fuel {A} (body body' : M A) (handler handler' : Exn → M A) w :
  (∀ w1, (body w1).1 ≠ OutOfFuel → body' w1 = body w1) →
  (∀ e w1, (handler e w1).1 ≠ OutOfFuel → handler' e w1 = handler e w1) →
  (try_except body handler w).1 ≠ OutOfFuel →
  try_except body' handler' w = try_except body handler w.
Proof.
  intros Hb Hh. unfold try_except.
  destruct (body w) as [[a|e| |] w1] eqn:Hbody; intros Hne;
    try (now destruct Hne);
    rewrite (Hb w) by (rewrite Hbody; discriminate); rewrite Hbody;
    try reflexivity.
  now apply Hh.
Qed.

Lemma on_function_error_more_fuel (g g' : M string) func_name e w :
  (∀ w1, (g w1).1 ≠ OutOfFuel → g' w1 = g w1) →
  (on_function_error g func_name e w).1 ≠ OutOfFuel →
  on_function_error g' func_name e w = on_function_error g func_name e w.
Proof.
  intros Hg. unfold on_function_error.
  apply bind_more_fuel. intros s w1.
  destruct (error_callback s) as [configured|]; [|reflexivity].
  apply bind_more_fuel. intros _ w2.
  apply bind_more_fuel. intros _ w3.
  unfold respond_with. apply bind_more_fuel. intros _ w4. apply Hg.
Qed.

Lemma generate_response_more_fuel fuel : ∀ extra w,
  (generate_response_fuel fuel w).1 ≠ OutOfFuel →
  generate_response_fuel (fuel + extra) w = generate_response_fuel fuel w.
Proof.
  induction fuel as [|fuel IH]; intros extra w; [now simpl|].
  simpl. apply bind_more_fuel. intros response w1.
  destruct (function_call response) as [func|]; [|reflexivity].
  destruct (json_loads _) as [func_args|]; [|reflexivity].
  apply bind_more_fuel. intros s w2.
  destruct (functions_callable s) as [registry|]; [|reflexivity].
  destruct (registry !! fc_name func) as [handler|]; [|reflexivity].
  apply try_more_fuel.
  - intros w3. destruct (handler func_args) as [v|detail]; [|reflexivity].
    apply bind_more_fuel. intros _ w4. apply IH.
  - intros e w3. apply on_function_error_more_fuel. intros w4. apply IH.
Qed.

Lemma generate_response_any_fuel extra w :
  generate_response_fuel (S (length (service w)) + extra) w = generate_response w.
Proof.
  unfold generate_response. apply generate_response_more_fuel.
  apply (bounded_generate_response_fuel (S (length (service w))) w). lia.
Qed.

(** * Further properties of the controller *)

(** ** Calls within the budget *)

Lemma after_callback_false w : after_callback false w = w.
Proof. unfold after_callback. now destruct (trim_message_callback (self w)). Qed.

Lemma set_history_back h s :
  set_conversation_history (conversation_history s)
    (set_conversation_history h s) = s.
Proof. now destruct s. Qed.

Lemma update_fits mc role name w r :
  response_token_size (self w) = Some r →
  r ≤ max_token_size (self w)
      - count_tokens (appended mc role name (conversation_history (self w))) →
  update_conversation_history mc role name w
  = (Ok (max_token_size (self w)
         - count_tokens (appended mc role name (conversation_history (self w)))),
     with_history (appended mc role name (conversation_history (self w))) w).
Proof.
  intros Hr Hfit. rewrite update_appended.
  set (h0 := appended mc role name (conversation_history (self w))) in *.
  set (w0 := with_history h0 w).
  assert (Hr0 : response_token_size (self w0) = Some r) by exact Hr.
  rewrite update_None_unfold. cbv zeta.
  change (conversation_history (self w0)) with h0.
  change (max_token_size (self w0)) with (max_token_size (self w)).
  destruct (several_active (self w0)).
  - rewrite trim_loop_unfold, Hr0.
    change (max_token_size (self w0)) with (max_token_size (self w)).
    rewrite bool_decide_eq_false_2 by lia. now rewrite after_callback_false.
  - destruct (single_active (self w0)); [|reflexivity].
    rewrite Hr0. now rewrite bool_decide_eq_false_2 by lia.
Qed.

(** X1.  When the transcript with the new message still leaves
    [response_token_size] tokens, [update_conversation_history] appends
    exactly that message at the end, returns [max_token_size] minus the
    tokens then used, and changes nothing else: no callback, no
    eviction, no cut. *)
Theorem update_within_budget c role name w r :
  response_token_size (self w) = Some r →
  r ≤ max_token_size (self w)
      - count_tokens (conversation_history (self w) ++ [new_message c role name]) →
  update_conversation_history (Some c) role name w
  = (Ok (max_token_size (self w)
         - count_tokens (conversation_history (self w)
                         ++ [new_message c role name])),
     with_history (conversation_history (self w) ++ [new_message c role name]) w).
Proof. intros Hr Hfit. exact (update_fits (Some c) role name w r Hr Hfit). Qed.

(** ** What eviction removes *)

(** X2.  When one message follows the primer and the new message does
    not fit, the message removed is the new one: the transcript is what
    it was before the call, the value returned is computed on it, and
    the trim callback, if any, is called once. *)
Theorem update_drops_new_message c role name w r a :
  response_token_size (self w) = Some r →
  conversation_history (self w) = initial_messages (self w) ++ [a] →
  max_token_size (self w)
  - count_tokens (conversation_history (self w) ++ [new_message c role name]) < r →
  let out := (update_conversation_history (Some c) role name w).1 in
  let w' := (update_conversation_history (Some c) role name w).2 in
  out = Ok (max_token_size (self w) - count_tokens (conversation_history (self w)))
  ∧ self w' = self w
  ∧ service w' = service w
  ∧ trace w' = trace w ++ match trim_message_callback (self w) with
                          | Some cb => [EvTrim cb (conversation_history (self w))]
                          | None => []
                          end.
Proof.
  intros Hr Hh Hover out w'. subst out w'. rewrite update_appended.
  cbn [appended].
  set (h0 := conversation_history (self w) ++ [new_message c role name]) in *.
  set (w0 := with_history h0 w).
  assert (Hlen0 : length h0 = S (S (length (initial_messages (self w))))).
  { subst h0. rewrite Hh, !length_app. simpl. lia. }
  destruct (update_None_case role name w0)
    as [k r' a' _ Hk Hr' Ha _ Hstop -> ->|r' m Hsing _ _ _ _ _
       |Hfits _ _|_ Hr' _ _];
    change (conversation_history (self w0)) with h0 in *;
    change (initial_messages (self w0)) with (initial_messages (self w)) in *;
    change (max_token_size (self w0)) with (max_token_size (self w)) in *;
    change (response_token_size (self w0))
      with (response_token_size (self w)) in *.
  - assert (r' = r) as -> by congruence.
    assert (k = 1%nat) as ->.
    { destruct (decide (k = O)) as [->|]; [|lia]. simpl in Ha. lia. }
    assert (Hafter : after_evictions (length (initial_messages (self w))) 1 h0
                     = conversation_history (self w)).
    { unfold after_evictions. rewrite drop_ge by lia. rewrite app_nil_r.
      subst h0. rewrite take_app_le by (rewrite Hh, length_app; simpl; lia).
      apply take_ge. rewrite Hh, length_app. simpl. lia. }
    rewrite Hafter in *. simpl in Ha. subst a'.
    rewrite after_callback_self, after_callback_service, after_callback_trace.
    subst w0. simpl. repeat split. apply set_history_back.
  - lia.
  - destruct Hfits as [?|[? _]]; lia.
  - congruence.
Qed.

(** X3.  With several messages after the primer, the oldest of them
    is never removed: the call removes a run of [k] messages that starts
    one position after it, and keeps every other message as it is. *)
Theorem oldest_active_message_stays mc role name w :
  let n := length (initial_messages (self w)) in
  let h0 := appended mc role name (conversation_history (self w)) in
  let w' := (update_conversation_history mc role name w).2 in
  (S n < length h0)%nat →
  conversation_history (self w') !! n = h0 !! n
  ∧ ∃ k, (k ≤ length h0 - S n)%nat
         ∧ conversation_history (self w') = take (S n) h0 ++ drop (S n + k) h0.
Proof.
  intros n h0 w' Hsev. subst w'. rewrite update_appended. fold h0.
  set (w0 := with_history h0 w).
  assert (Hkeep : ∀ k, (take (S n) h0 ++ drop (S n + k) h0) !! n = h0 !! n).
  { intros k. rewrite lookup_app_l by (rewrite length_take; lia).
    apply lookup_take_lt. lia. }
  destruct (update_None_case role name w0)
    as [k r a' _ Hk _ _ _ _ _ ->|r m Hsing _ _ _ _ _|Hfits _ ->|_ _ _ ->];
    change (conversation_history (self w0)) with h0 in *;
    change (length (initial_messages (self w0))) with n in *.
  - rewrite after_callback_self. simpl. fold n.
    split; [apply Hkeep|]. exists k. split; [assumption|reflexivity].
  - lia.
  - split; [reflexivity|]. exists O. split; [lia|].
    rewrite Nat.add_0_r. now rewrite take_drop.
  - split; [reflexivity|]. exists O. split; [lia|].
    rewrite Nat.add_0_r. now rewrite take_drop.
Qed.

(** ** What the returned number means *)

(** X4.  With a numeric [response_token_size], the call returns a
    number [a].  Either [a] is [max_token_size] minus the tokens of the
    final transcript, or exactly one message follows the primer, it has
    just been cut, and [a] is [response_token_size].  Moreover [a] is at
    least [response_token_size] unless at most one message follows the
    primer. *)
Theorem update_returned_value mc role name w r :
  response_token_size (self w) = Some r →
  let w' := (update_conversation_history mc role name w).2 in
  let n := length (initial_messages (self w)) in
  ∃ a, (update_conversation_history mc role name w).1 = Ok a
       ∧ (a = max_token_size (self w)
              - count_tokens (conversation_history (self w'))
          ∨ (length (conversation_history (self w')) = S n ∧ a = r))
       ∧ (r ≤ a ∨ (length (conversation_history (self w')) ≤ S n)%nat).
Proof.
  intros Hr w' n. subst w'. rewrite update_appended.
  set (h0 := appended mc role name (conversation_history (self w))).
  set (w0 := with_history h0 w).
  destruct (update_None_case role name w0)
    as [k r' a' _ Hk Hr' Ha _ Hstop -> ->|r' m Hsing Hr' _ _ -> ->
       |Hfits -> ->|_ Hr' _ _];
    change (conversation_history (self w0)) with h0 in *;
    change (length (initial_messages (self w0))) with n in *;
    change (max_token_size (self w0)) with (max_token_size (self w)) in *;
    change (response_token_size (self w0))
      with (response_token_size (self w)) in *;
    rewrite ?after_callback_self; simpl.
  - assert (r' = r) as -> by congruence.
    exists a'. split; [reflexivity|]. split.
    + left. destruct (decide (k = O)) as [->|]; [|exact Ha].
      now rewrite after_evictions_0.
    + rewrite length_after_evictions by assumption.
      destruct Hstop; [now left|right; lia].
  - assert (r' = r) as -> by congruence.
    exists r. split; [reflexivity|]. split.
    + right. now rewrite length_insert.
    + left. lia.
  - eexists. split; [reflexivity|]. split; [now left|].
    destruct Hfits as [Hle|[Heq (r' & Hr' & Hge)]]; [right; lia|].
    assert (r' = r) as -> by congruence. now left.
  - congruence.
Qed.

(** ** Cutting the single message *)



(** ** The shape of the messages *)

Lemma new_message_named c role name :
  named_iff_function (new_message c role name) = true.
Proof.
  unfold named_iff_function, new_message.
  destruct (String.eqb role "function") eqn:E; simpl; now rewrite E.
Qed.

(** X7.  If every message of the transcript has the key [name] exactly
    when its role is [function], this is still so after any call of
    [update_conversation_history]: the message appended is built that
    way, evictions only remove messages, and a cut keeps role and
    name. *)
Theorem update_keeps_names mc role name w :
  Forall (λ m, named_iff_function m = true) (conversation_history (self w)) →
  Forall (λ m, named_iff_function m = true)
    (conversation_history (self (update_conversation_history mc role name w).2)).
Proof.
  intros Hwf. rewrite update_appended.
  set (h0 := appended mc role name (conversation_history (self w))).
  assert (Hwf0 : Forall (λ m, named_iff_function m = true) h0).
  { subst h0. destruct mc as [c|]; simpl; [|assumption].
    apply Forall_app. split; [assumption|].
    constructor; [apply new_message_named|constructor]. }
  set (w0 := with_history h0 w).
  destruct (update_None_case role name w0)
    as [k r a' _ _ _ _ _ _ _ ->|r m _ _ _ Hlast _ ->|_ _ ->|_ _ _ ->];
    change (conversation_history (self w0)) with h0 in *;
    rewrite ?after_callback_self; simpl; try assumption.
  - unfold after_evictions. apply Forall_app.
    split; [now apply Forall_take|now apply Forall_drop].
  - apply Forall_insert; [assumption|].
    exact (proj1 (Forall_lookup _ _) Hwf0 _ _ Hlast).
Qed.

(** ** The default reserve *)

(** X8.  When [response_token_size] is [None], as the constructor
    leaves it by default, and the transcript holds at least the primer,
    a call with a content appends the message and then raises
    [TypeError] at the comparison with the reserve; [respond] therefore
    raises it too, before any request is sent. *)
Theorem update_without_reserve_raises c role name user_message w :
  response_token_size (self w) = None →
  (length (initial_messages (self w)) ≤ length (conversation_history (self w)))%nat →
  let type_error :=
    {| exn_class := TypeError;
       exn_detail :=
         "'<' not supported between instances of 'int' and 'NoneType'" |} in
  update_conversation_history (Some c) role name w
  = (Raised type_error,
     with_history (conversation_history (self w) ++ [new_message c role name]) w)
  ∧ respond user_message w
    = (Raised type_error,
       with_history
         (conversation_history (self w) ++ [new_message user_message "user" None])
         w).
Proof.
  intros Hr Hlen type_error.
  assert (Hupd : ∀ c role name,
            update_conversation_history (Some c) role name w
            = (Raised type_error,
               with_history
                 (conversation_history (self w) ++ [new_message c role name]) w)).
  { intros c' role' name'. rewrite update_appended. cbn [appended].
    set (h0 := conversation_history (self w) ++ [new_message c' role' name']).
    set (w0 := with_history h0 w).
    assert (Hlen0 : length h0 = S (length (conversation_history (self w))))
      by (subst h0; rewrite length_app; simpl; lia).
    pose proof (surjective_pairing
                  (update_conversation_history None role' name' w0)) as Hpair.
    destruct (update_None_case role' name' w0)
      as [k r a' _ _ Hr' _ _ _ _ _|r m _ Hr' _ _ _ _|Hfits _ _|_ _ Hout Hw];
      change (conversation_history (self w0)) with h0 in *;
      change (initial_messages (self w0)) with (initial_messages (self w)) in *;
      change (response_token_size (self w0))
        with (response_token_size (self w)) in *.
    - congruence.
    - congruence.
    - destruct Hfits as [Hle|[_ (r & Hr' & _)]]; [lia|congruence].
    - rewrite Hpair, Hout, Hw. reflexivity. }
  split; [apply Hupd|].
  unfold respond, respond_with. apply bind_raised, Hupd.
Qed.

(** ** [rollback] *)

Lemma rollback_last h m w :
  conversation_history (self w) = h ++ [m] →
  rollback w = (Ok tt, with_history h w).
Proof.
  intros Hh. unfold rollback. run_monad. rewrite Hh, last_snoc.
  rewrite length_app. simpl.
  replace (pred (length h + 1)) with (length h) by lia.
  now rewrite take_app_length.
Qed.

(** X9.  A call that stays within the budget is undone by [rollback]:
    the two in sequence leave the whole world as it was. *)
Theorem rollback_undoes_update c role name w r :
  response_token_size (self w) = Some r →
  r ≤ max_token_size (self w)
      - count_tokens (conversation_history (self w) ++ [new_message c role name]) →
  update_then_rollback c role name w = (Ok tt, w).
Proof.
  intros Hr Hfit. unfold update_then_rollback.
  rewrite (bind_ok _ _ _ _ _ (update_fits (Some c) role name w r Hr Hfit)).
  cbn [appended].
  rewrite (rollback_last (conversation_history (self w))
             (new_message c role name) (with_history _ w) eq_refl).
  f_equal. exact (with_history_id w).
Qed.

(** X10.  [rollback] does not stop at the primer.  On a transcript that
    is exactly the primer it removes the last primer message;
    [get_conversation] is then empty, and the next call with a content
    puts the new message in the place of the removed one and returns
    without comparing anything with the reserve. *)
Theorem rollback_reaches_primer c role name w primer m :
  initial_messages (self w) = primer ++ [m] →
  conversation_history (self w) = primer ++ [m] →
  rollback w = (Ok tt, with_history primer w)
  ∧ get_conversation (self (with_history primer w)) = []
  ∧ update_conversation_history (Some c) role name (with_history primer w)
    = (Ok (max_token_size (self w)
           - count_tokens (primer ++ [new_message c role name])),
       with_history (primer ++ [new_message c role name]) w).
Proof.
  intros Hinit Hh. split; [exact (rollback_last primer m w Hh)|]. split.
  - unfold get_conversation. simpl. rewrite Hinit. apply drop_ge.
    rewrite length_app. lia.
  - rewrite update_appended. cbn [appended]. simpl.
    change (with_history (primer ++ [new_message c role name])
              (with_history primer w))
      with (with_history (primer ++ [new_message c role name]) w).
    set (w0 := with_history (primer ++ [new_message c role name]) w).
    rewrite update_None_unfold. cbv zeta.
    unfold several_active, single_active. simpl. rewrite Hinit, !length_app.
    simpl. rewrite !bool_decide_eq_false_2 by lia. reflexivity.
Qed.

(** ** [add_messages], [get_conversation] and [__init__] *)

Lemma count_tokens_nonneg h :
  (∀ text, 0 ≤ count_tokens_text text) → 0 ≤ count_tokens h.
Proof.
  intros Hpos. induction h as [|m h IH]; simpl; [lia|].
  specialize (Hpos (content m)). lia.
Qed.

Lemma add_messages_fit messages : ∀ w r,
  (∀ text, 0 ≤ count_tokens_text text) →
  response_token_size (self w) = Some r →
  r ≤ max_token_size (self w)
      - count_tokens (conversation_history (self w)
                      ++ map (λ c, new_message c "user" None) messages) →
  add_messages messages w
  = (Ok tt,
     with_history (conversation_history (self w)
                   ++ map (λ c, new_message c "user" None) messages) w).
Proof.
  induction messages as [|c messages IH]; intros w r Hpos Hr Hfit; simpl.
  - rewrite app_nil_r. now rewrite with_history_id.
  - simpl in Hfit.
    assert (Hsplit : conversation_history (self w)
                     ++ new_message c "user" None
                        :: map (λ c, new_message c "user" None) messages
                     = (conversation_history (self w) ++ [new_message c "user" None])
                       ++ map (λ c, new_message c "user" None) messages)
      by now rewrite <- app_assoc.
    rewrite Hsplit in Hfit |- *.
    pose proof (count_tokens_nonneg
                  (map (λ c, new_message c "user" None) messages) Hpos) as Hrest.
    rewrite count_tokens_app in Hfit.
    rewrite (bind_ok _ _ _ _ _
               (update_fits (Some c) "user" None w r Hr ltac:(simpl; lia))).
    apply (IH (with_history _ w) r Hpos Hr).
    simpl. rewrite count_tokens_app. lia.
Qed.

(** X11.  Round trip.  When no text counts a negative number of tokens
    and the transcript with all the new messages still leaves
    [response_token_size] tokens, [add_messages] succeeds and
    [get_conversation] then returns the former active segment followed by
    the messages, as user messages, in the order given. *)
Theorem get_conversation_after_add_messages messages w r active :
  (∀ text, 0 ≤ count_tokens_text text) →
  response_token_size (self w) = Some r →
  conversation_history (self w) = initial_messages (self w) ++ active →
  r ≤ max_token_size (self w)
      - count_tokens (conversation_history (self w)
                      ++ map (λ c, {| role := "user"; content := c; name := None |})
                           messages) →
  (add_messages messages w).1 = Ok tt
  ∧ get_conversation (self (add_messages messages w).2)
    = active ++ map (λ c, {| role := "user"; content := c; name := None |})
                  messages.
Proof.
  intros Hpos Hr Hh Hfit.
  rewrite (add_messages_fit messages w r Hpos Hr Hfit).
  split; [reflexivity|]. unfold get_conversation. simpl.
  rewrite Hh, <- app_assoc. now rewrite drop_app_length.
Qed.

(** X12.  Adding the messages of [l1 ++ l2] is adding those of [l1]
    and then those of [l2]: same world, same result, and an exception
    of the first part stops the second. *)
Theorem add_messages_app l1 l2 w :
  add_messages (l1 ++ l2) w = (add_messages l1;; add_messages l2) w.
Proof.
  revert w. induction l1 as [|c l1 IH]; intros w; simpl.
  - reflexivity.
  - unfold mbind, M_bind in *.
    destruct (update_conversation_history (Some c) "user" None w)
      as [[a|e| |] w1]; try reflexivity.
    apply IH.
Qed.


(** ** Plain replies *)

Lemma first_request w response rest :
  service w = response :: rest →
  create_response FirstRequest w = (Ok response, after_request FirstRequest rest w).
Proof. intros Hsv. rewrite create_response_unfold, Hsv. reflexivity. Qed.

Lemma generate_response_fuel_terminal fuel w response rest text c :
  service w = response :: rest →
  function_call response = None →
  reply_content response = Some text →
  str_last text = Some c →
  not_terminal c = false →
  generate_response_fuel (S fuel) w
  = (Ok text, after_request FirstRequest rest w).
Proof.
  intros Hsv Hfc Hcontent Hlast Hnt. simpl.
  rewrite (bind_ok _ _ _ _ _ (first_request w response rest Hsv)).
  rewrite Hfc, Hcontent. unfold finish_reply. now rewrite Hlast, Hnt.
Qed.

(** X14.  A plain reply that ends with [.], [!] or [?] is returned as
    it is after one request; the transcript is not changed, so the reply
    of the assistant is not recorded in it. *)
Theorem terminal_reply_is_returned w response rest text c :
  service w = response :: rest →
  function_call response = None →
  reply_content response = Some text →
  str_last text = Some c →
  not_terminal c = false →
  generate_response w = (Ok text, after_request FirstRequest rest w).
Proof.
  intros Hsv Hfc Hcontent Hlast Hnt. unfold generate_response.
  now apply generate_response_fuel_terminal with response c.
Qed.

(** X15.  A plain reply without content makes [generate_response]
    raise [TypeError], and one with an empty content [IndexError], at
    [reply[-1]]; the request has been sent and the transcript is
    unchanged. *)
Theorem empty_reply_raises w response rest :
  service w = response :: rest →
  function_call response = None →
  match reply_content response with
  | None =>
      generate_response w
      = (Raised {| exn_class := TypeError;
                   exn_detail := "'NoneType' object is not subscriptable" |},
         after_request FirstRequest rest w)
  | Some text =>
      text = "" →
      generate_response w
      = (Raised {| exn_class := IndexError;
                   exn_detail := "string index out of range" |},
         after_request FirstRequest rest w)
  end.
Proof.
  intros Hsv Hfc. unfold generate_response. simpl.
  rewrite (bind_ok _ _ _ _ _ (first_request w response rest Hsv)).
  rewrite Hfc. destruct (reply_content response) as [text|]; [|reflexivity].
  intros ->. reflexivity.
Qed.

(** ** Function calls *)

(** X16.  What is checked before the handler runs is outside the [try]:
    arguments that are not JSON raise [JSONDecodeError], whether the
    function is registered or not, and with [functions_callable] left to
    [None] any function call with JSON arguments raises [TypeError]; in
    both cases nothing is printed and the transcript is unchanged. *)
Theorem dispatch_failures_propagate w response rest func :
  service w = response :: rest →
  function_call response = Some func →
  match json_loads (fc_arguments func) with
  | None =>
      generate_response w
      = (Raised {| exn_class := JSONDecodeError; exn_detail := "Expecting value" |},
         after_request FirstRequest rest w)
  | Some _ =>
      functions_callable (self w) = None →
      generate_response w
      = (Raised {| exn_class := TypeError;
                   exn_detail := "argument of type 'NoneType' is not iterable" |},
         after_request FirstRequest rest w)
  end.
Proof.
  intros Hsv Hfc. unfold generate_response. simpl.
  rewrite (bind_ok _ _ _ _ _ (first_request w response rest Hsv)).
  rewrite Hfc. destruct (json_loads _) as [func_args|]; [|reflexivity].
  intros Hreg. run_monad. now rewrite Hreg.
Qed.

(** X17.  On a chatbot without the attribute [error_callback], when the
    handler of the function called raises, [respond] raises
    [AttributeError]: the message of the user stays in the transcript,
    nothing is rolled back, no error callback runs and the replies that
    follow are not asked for. *)
Theorem respond_handler_failure user_message w r response rest func func_args
    registry handler detail :
  error_callback (self w) = None →
  response_token_size (self w) = Some r →
  r ≤ max_token_size (self w)
      - count_tokens (conversation_history (self w)
                      ++ [new_message user_message "user" None]) →
  service w = response :: rest →
  function_call response = Some func →
  json_loads (fc_arguments func) = Some func_args →
  functions_callable (self w) = Some registry →
  registry !! fc_name func = Some handler →
  handler func_args = Raises detail →
  respond user_message w
  = (Raised {| exn_class := AttributeError;
               exn_detail :=
                 "'OpenAIChatbot' object has no attribute 'error_callback'" |},
     after_request FirstRequest rest
       (with_history (conversation_history (self w)
                      ++ [new_message user_message "user" None]) w)).
Proof.
  intros Hcb Hr Hfit Hsv Hfc Hargs Hreg Hh Hraise.
  unfold respond, respond_with.
  rewrite (bind_ok _ _ _ _ _
             (update_fits (Some user_message) "user" None w r Hr Hfit)).
  unfold generate_response. cbn [appended].
  apply (handler_failure_escapes _ _ response rest func func_args registry
           handler detail); assumption.
Qed.

Lemma registered_call_outcome fuel w response rest func func_args registry
    handler :
  error_callback (self w) = None →
  service w = response :: rest →
  function_call response = Some func →
  json_loads (fc_arguments func) = Some func_args →
  functions_callable (self w) = Some registry →
  registry !! fc_name func = Some handler →
  match (generate_response_fuel (S fuel) w).1 with
  | Raised e =>
      e = {| exn_class := AttributeError;
             exn_detail :=
               "'OpenAIChatbot' object has no attribute 'error_callback'" |}
  | _ => True
  end.
Proof.
  intros Hcb Hsv Hfc Hargs Hreg Hh. simpl.
  rewrite (bind_ok _ _ _ _ _ (first_request w response rest Hsv)).
  rewrite Hfc, Hargs. run_monad. rewrite Hreg, Hh.
  set (w1 := after_request FirstRequest rest w).
  set (body := match handler func_args with
               | Returns _ => _ | Raises _ => _ end).
  assert (Hbody : adds_continuations 1 body).
  { subst body. destruct (handler func_args).
    - apply (adds_bind 0 1); [apply adds_update|]. intros _.
      apply adds_generate_response_fuel.
    - apply (adds_weaken 0); [lia|apply adds_raise]. }
  destruct (Hbody w1 Hcb) as [Hcb' _].
  unfold try_except. destruct (body w1) as [[text|e| |] w2]; simpl; auto.
  unfold on_function_error. run_monad. simpl in Hcb'.
  now rewrite Hcb'.
Qed.

(** X18.  On a chatbot without the attribute [error_callback], once a
    registered function has been called, [generate_response] can only
    return, wait for the service or raise [AttributeError]: whatever is
    raised by the handler, by the update or by the nested
    [generate_response] is replaced by the [AttributeError] of the
    [except] clause. *)
Theorem registered_call_masks_exceptions w response rest func func_args
    registry handler :
  error_callback (self w) = None →
  service w = response :: rest →
  function_call response = Some func →
  json_loads (fc_arguments func) = Some func_args →
  functions_callable (self w) = Some registry →
  registry !! fc_name func = Some handler →
  match (generate_response w).1 with
  | Ok _ | NoReply => True
  | Raised e =>
      e = {| exn_class := AttributeError;
             exn_detail :=
               "'OpenAIChatbot' object has no attribute 'error_callback'" |}
  | OutOfFuel => False
  end.
Proof.
  intros Hcb Hsv Hfc Hargs Hreg Hh.
  pose proof (generate_response_has_fuel w) as Hfuel.
  pose proof (registered_call_outcome (length (service w)) w response rest
                func func_args registry handler Hcb Hsv Hfc Hargs Hreg Hh)
    as Hout.
  unfold generate_response in *.
  destruct (generate_response_fuel (S (length (service w))) w) as [[text|e| |] w'];
    simpl in *; auto.
Qed.

(** X19.  When the function called is not registered and the reply
    carries a content that ends with [.], [!] or [?],
    [generate_response] prints that the function is not recognized and
    returns the content; the transcript is unchanged and no handler
    runs. *)
Theorem unknown_function_degrades w response rest func func_args registry
    text c :
  service w = response :: rest →
  function_call response = Some func →
  reply_content response = Some text →
  str_last text = Some c →
  not_terminal c = false →
  json_loads (fc_arguments func) = Some func_args →
  functions_callable (self w) = Some registry →
  registry !! fc_name func = None →
  generate_response w
  = (Ok text,
     with_event (EvPrint ("Function " +:+ fc_name func +:+ " is not recognized."))
       (after_request FirstRequest rest w)).
Proof.
  intros Hsv Hfc Hcontent Hlast Hnt Hargs Hreg Hh. unfold generate_response.
  rewrite (unknown_function_with_content _ w response rest func func_args
             registry text c) by assumption.
  unfold with_event, after_request, not_recognized. simpl.
  now rewrite <- app_assoc.
Qed.

(** X20.  A function call that succeeds, followed by a plain reply that
    ends a sentence: when the result of the handler fits in the budget,
    it is appended as a message of role [function] named after the
    function, a second request is sent with the longer transcript, and
    its reply is returned; that reply is not recorded. *)
Theorem function_call_then_answer w r call answer rest func func_args registry
    handler result text c :
  response_token_size (self w) = Some r →
  service w = call :: answer :: rest →
  function_call call = Some func →
  json_loads (fc_arguments func) = Some func_args →
  functions_callable (self w) = Some registry →
  registry !! fc_name func = Some handler →
  handler func_args = Returns (Some result) →
  let function_message :=
    {| role := "function"; content := result;
       name := Some (Some (fc_name func)) |} in
  r ≤ max_token_size (self w)
      - count_tokens (conversation_history (self w) ++ [function_message]) →
  function_call answer = None →
  reply_content answer = Some text →
  str_last text = Some c →
  not_terminal c = false →
  generate_response w
  = (Ok text,
     after_request FirstRequest rest
       (with_history (conversation_history (self w) ++ [function_message])
          (after_request FirstRequest (answer :: rest) w))).
Proof.
  intros Hr Hsv Hfc Hargs Hreg Hh Hret function_message Hfit
         Hfc2 Hcontent Hlast Hnt.
  unfold generate_response. rewrite Hsv.
  change (length (call :: answer :: rest)) with (S (S (length rest))).
  generalize (S (length rest)). intros fuel.
  change (generate_response_fuel (S (S fuel)) w)
    with ((response ← create_response FirstRequest;
           match function_call response with
           | Some func =>
               match json_loads (fc_arguments func) with
               | None => raise JSONDecodeError "Expecting value"
               | Some func_args =>
                   s ← get_self;
                   match functions_callable s with
                   | None =>
                       raise TypeError "argument of type 'NoneType' is not iterable"
                   | Some registry =>
                       match registry !! fc_name func with
                       | Some handler =>
                           try_except
                             (match handler func_args with
                              | Raises detail => raise HandlerException detail
                              | Returns func_result =>
                                  update_conversation_history
                                    func_result "function" (Some (fc_name func));;
                                  generate_response_fuel (S fuel)
                              end)
                             (on_function_error (generate_response_fuel (S fuel))
                                                (fc_name func))
                       | None =>
                           emit (EvPrint (not_recognized (fc_name func)));;
                           finish_reply (reply_content response)
                       end
                   end
               end
           | None => finish_reply (reply_content response)
           end) w).
  rewrite (bind_ok _ _ _ _ _ (first_request w call (answer :: rest) Hsv)).
  rewrite Hfc, Hargs. unfold mbind at 1, M_bind, get_self at 1.
  cbn [self after_request]. rewrite Hreg, Hh, Hret.
  set (w1 := after_request FirstRequest (answer :: rest) w).
  assert (Hupd : update_conversation_history (Some result) "function"
                   (Some (fc_name func)) w1
                 = (Ok (max_token_size (self w)
                        - count_tokens (conversation_history (self w)
                                        ++ [function_message])),
                    with_history (conversation_history (self w)
                                  ++ [function_message]) w1)).
  { apply (update_fits (Some result) "function" (Some (fc_name func)) w1 r);
      [exact Hr|exact Hfit]. }
  unfold try_except. rewrite (bind_ok _ _ _ _ _ Hupd).
  rewrite (generate_response_fuel_terminal fuel _ answer rest text c)
    by (try reflexivity; assumption).
  reflexivity.
Qed.

(** X21.  A whole turn: when the message of the user fits in the budget
    and the service answers with a plain reply that ends a sentence,
    [respond] returns that reply, the transcript has gained the message
    of the user and nothing else, and the one request carried the
    transcript with that message. *)
Theorem respond_plain_turn user_message w r response rest text c :
  response_token_size (self w) = Some r →
  r ≤ max_token_size (self w)
      - count_tokens (conversation_history (self w)
                      ++ [{| role := "user"; content := user_message;
                             name := None |}]) →
  service w = response :: rest →
  function_call response = None →
  reply_content response = Some text →
  str_last text = Some c →
  not_terminal c = false →
  respond user_message w
  = (Ok text,
     after_request FirstRequest rest
       (with_history (conversation_history (self w)
                      ++ [{| role := "user"; content := user_message;
                             name := None |}]) w)).
Proof.
  intros Hr Hfit Hsv Hfc Hcontent Hlast Hnt.
  unfold respond, respond_with.
  rewrite (bind_ok _ _ _ _ _
             (update_fits (Some user_message) "user" None w r Hr Hfit)).
  unfold generate_response.
  now apply generate_response_fuel_terminal with response c.
Qed.

(** ** The continuation *)


End Properties.

(** * Properties of [roll_dice] *)

Section DiceProperties.
Context `{RandomSource}.

Lemma roll_many_succeeds count num_sides g :
  1 ≤ num_sides →
  ∃ xs g', roll_many count num_sides g = inr (xs, g') ∧ length xs = count.
Proof.
  intros Hs. revert g. induction count as [|count IH]; intros g; simpl.
  - now exists [], g.
  - rewrite bool_decide_eq_false_2 by lia.
    destruct (randint 1 num_sides g) as [x g1].
    destruct (IH g1) as (xs & g2 & -> & Hlen).
    exists (x :: xs), g2. simpl. now rewrite Hlen.
Qed.

Lemma roll_many_in_range count num_sides g xs g' :
  randint_in_range →
  roll_many count num_sides g = inr (xs, g') →
  Forall (λ x, 1 ≤ x ≤ num_sides) xs.
Proof.
  intros Hrange. revert g xs g'.
  induction count as [|count IH]; intros g xs g'; simpl.
  - intros [= <- _]. constructor.
  - destruct (bool_decide (num_sides < 1)) eqn:Hs; [discriminate|].
    apply bool_decide_eq_false in Hs.
    pose proof (Hrange 1 num_sides g ltac:(lia)) as Hx.
    destruct (randint 1 num_sides g) as [x g1]. simpl in Hx.
    destruct (roll_many count num_sides g1) as [e|[ys g2]] eqn:Hrest;
      [discriminate|].
    intros [= <- _]. constructor; [assumption|]. eapply IH, Hrest.
Qed.

Lemma roll_many_fails count num_sides g :
  num_sides < 1 →
  roll_many (S count) num_sides g
  = inl (ValueError "empty range for randrange()").
Proof. intros Hs. simpl. now rewrite bool_decide_eq_true_2 by lia. Qed.

Lemma py_sum_bounds (num_sides : Z) xs :
  Forall (λ x, 1 ≤ x ≤ num_sides) xs →
  Z.of_nat (length xs) ≤ py_sum xs ≤ Z.of_nat (length xs) * num_sides.
Proof.
  induction 1 as [|x xs Hx _ IH]; simpl; [lia|].
  fold (py_sum xs). nia.
Qed.

Lemma foldr_max_spec x xs :
  foldr Z.max x xs ∈ x :: xs ∧ Forall (λ y, y ≤ foldr Z.max x xs) (x :: xs).
Proof.
  induction xs as [|y xs [Hin Hall]]; simpl.
  - split; [left|]. constructor; [lia|constructor].
  - set (m := foldr Z.max x xs) in *.
    inversion Hall as [|? ? Hx Hxs]; subst. split.
    + destruct (Z.max_spec y m) as [[_ ->]|[_ ->]].
      * apply elem_of_cons in Hin as [->|Hin]; [left|right; now right].
      * right. left.
    + constructor; [lia|]. constructor; [lia|].
      eapply Forall_impl; [exact Hxs|]. simpl. intros; lia.
Qed.

Lemma foldr_min_spec x xs :
  foldr Z.min x xs ∈ x :: xs ∧ Forall (λ y, foldr Z.min x xs ≤ y) (x :: xs).
Proof.
  induction xs as [|y xs [Hin Hall]]; simpl.
  - split; [left|]. constructor; [lia|constructor].
  - set (m := foldr Z.min x xs) in *.
    inversion Hall as [|? ? Hx Hxs]; subst. split.
    + destruct (Z.min_spec y m) as [[_ ->]|[_ ->]].
      * right. left.
      * apply elem_of_cons in Hin as [->|Hin]; [left|right; now right].
    + constructor; [lia|]. constructor; [lia|].
      eapply Forall_impl; [exact Hxs|]. simpl. intros; lia.
Qed.

Lemma roll_dice_succeeds num_sides num_dice modifier advantage disadvantage g :
  1 ≤ num_sides →
  advantage && disadvantage = false →
  ∃ roll g',
    roll_dice num_sides num_dice modifier advantage disadvantage g
    = inr (roll, g').
Proof.
  intros Hs Hflags. unfold roll_dice. rewrite Hflags.
  destruct (roll_many_succeeds
              (Z.to_nat (if advantage || disadvantage
                         then Z.max 2 num_dice else num_dice))
              num_sides g Hs) as (xs & g' & -> & Hlen).
  destruct advantage; [|destruct disadvantage]; simpl in *; eauto;
    (destruct xs as [|x xs]; [simpl in Hlen; lia|]); simpl; eauto.
Qed.

(** X22.  [roll_dice] fails in two cases only: when both [advantage]
    and [disadvantage] are asked for, and when at least one die is to be
    rolled with fewer than one side.  In particular no die at all without
    advantage or disadvantage never fails, whatever the number of
    sides. *)
Theorem roll_dice_fails_iff num_sides num_dice modifier advantage
    disadvantage g :
  (∃ e, roll_dice num_sides num_dice modifier advantage disadvantage g = inl e)
  ↔ (advantage = true ∧ disadvantage = true)
    ∨ (num_sides < 1 ∧ (0 < dice_rolled num_dice advantage disadvantage)%nat).
Proof.
  destruct (advantage && disadvantage) eqn:Hflags.
  - apply andb_true_iff in Hflags as [-> ->]. split; [now left|].
    intros _. unfold roll_dice. simpl. eauto.
  - destruct (decide (num_sides < 1)) as [Hs|Hs].
    + unfold roll_dice, dice_rolled. rewrite Hflags.
      destruct (Z.to_nat _) as [|count] eqn:Hcount.
      * simpl. destruct advantage, disadvantage; simpl in *;
          try discriminate; try lia.
        split; [intros [e He]; discriminate|].
        intros [[? _]|[_ ?]]; [discriminate|lia].
      * rewrite (roll_many_fails count num_sides g Hs).
        split; [intros _; right; split; [assumption|lia]|eauto].
    + destruct (roll_dice_succeeds num_sides num_dice modifier advantage
                  disadvantage g ltac:(lia) Hflags) as (roll & g' & ->).
      split; [intros [e He]; discriminate|].
      intros [[-> ->]|[? _]]; [discriminate|lia].
Qed.

(** X23.  Without advantage or disadvantage, with at least one side and
    a [randint] that keeps its promise, [roll_dice] rolls [num_dice] dice
    (none if the number is negative), each between 1 and [num_sides], and
    its result is their sum plus the modifier: it lies between the number
    of dice plus the modifier and the number of dice times [num_sides]
    plus the modifier. *)
Theorem roll_dice_sum num_sides num_dice modifier g :
  randint_in_range →
  1 ≤ num_sides →
  ∃ roll g',
    roll_dice num_sides num_dice modifier false false g = inr (roll, g')
    ∧ length (rolls roll) = Z.to_nat num_dice
    ∧ Forall (λ x, 1 ≤ x ≤ num_sides) (rolls roll)
    ∧ result roll = py_sum (rolls roll) + modifier
    ∧ Z.of_nat (Z.to_nat num_dice) + modifier
      ≤ result roll
      ≤ Z.of_nat (Z.to_nat num_dice) * num_sides + modifier.
Proof.
  intros Hrange Hs. unfold roll_dice. simpl.
  destruct (roll_many_succeeds (Z.to_nat num_dice) num_sides g Hs)
    as (xs & g' & Hroll & Hlen).
  rewrite Hroll. exists {| result := py_sum xs + modifier; rolls := xs |}, g'.
  pose proof (roll_many_in_range _ _ _ _ _ Hrange Hroll) as Hall.
  pose proof (py_sum_bounds num_sides xs Hall) as Hsum.
  simpl. rewrite Hlen in Hsum. repeat split; try assumption; lia.
Qed.

(** X24.  With advantage or disadvantage (one of them), at least one
    side and a [randint] that keeps its promise, [roll_dice] rolls at
    least two dice, [max(2, num_dice)] of them; the result minus the
    modifier is one of the rolls, no roll is above it with advantage and
    none below it with disadvantage, and the result lies between 1 and
    [num_sides], plus the modifier. *)
Theorem roll_dice_advantage num_sides num_dice modifier advantage
    disadvantage g :
  randint_in_range →
  1 ≤ num_sides →
  advantage ≠ disadvantage →
  ∃ roll g',
    roll_dice num_sides num_dice modifier advantage disadvantage g
    = inr (roll, g')
    ∧ length (rolls roll) = Z.to_nat (Z.max 2 num_dice)
    ∧ (2 ≤ length (rolls roll))%nat
    ∧ result roll - modifier ∈ rolls roll
    ∧ Forall (λ x, if advantage then x + modifier ≤ result roll
                   else result roll ≤ x + modifier) (rolls roll)
    ∧ 1 + modifier ≤ result roll ≤ num_sides + modifier.
Proof.
  intros Hrange Hs Hne. unfold roll_dice.
  destruct (roll_many_succeeds (Z.to_nat (Z.max 2 num_dice)) num_sides g Hs)
    as (xs & g' & Hroll & Hlen).
  pose proof (roll_many_in_range _ _ _ _ _ Hrange Hroll) as Hall.
  destruct xs as [|x xs]; [simpl in Hlen; lia|].
  destruct advantage, disadvantage; try congruence; simpl; rewrite Hroll; simpl.
  - destruct (foldr_max_spec x xs) as [Hin Hmax].
    eexists _, g'. split; [reflexivity|]. simpl.
    replace (foldr Z.max x xs + modifier - modifier) with (foldr Z.max x xs)
      by lia.
    repeat split; try assumption; try (simpl in Hlen; lia).
    + eapply Forall_impl; [exact Hmax|]. simpl. intros; lia.
    + pose proof (proj1 (Forall_forall _ _) Hall _ Hin). simpl in *. lia.
    + pose proof (proj1 (Forall_forall _ _) Hall _ Hin). simpl in *. lia.
  - destruct (foldr_min_spec x xs) as [Hin Hmin].
    eexists _, g'. split; [reflexivity|]. simpl.
    replace (foldr Z.min x xs + modifier - modifier) with (foldr Z.min x xs)
      by lia.
    repeat split; try assumption; try (simpl in Hlen; lia).
    + eapply Forall_impl; [exact Hmin|]. simpl. intros; lia.
    + pose proof (proj1 (Forall_forall _ _) Hall _ Hin). simpl in *. lia.
    + pose proof (proj1 (Forall_forall _ _) Hall _ Hin). simpl in *. lia.
Qed.

(** X25.  From the same state of the generator, a roll with advantage
    and a roll with disadvantage draw the same dice and leave the same
    generator, and the first result is at least the second. *)
Theorem advantage_beats_disadvantage num_sides num_dice modifier g :
  1 ≤ num_sides →
  ∃ high low g',
    roll_dice num_sides num_dice modifier true false g = inr (high, g')
    ∧ roll_dice num_sides num_dice modifier false true g = inr (low, g')
    ∧ rolls high = rolls low
    ∧ result low ≤ result high.
Proof.
  intros Hs. unfold roll_dice. simpl.
  destruct (roll_many_succeeds (Z.to_nat (Z.max 2 num_dice)) num_sides g Hs)
    as (xs & g' & Hroll & Hlen).
  rewrite Hroll. destruct xs as [|x xs]; [simpl in Hlen; lia|]. simpl.
  eexists _, _, g'. repeat split. simpl.
  destruct (foldr_max_spec x xs) as [_ Hmax].
  destruct (foldr_min_spec x xs) as [_ Hmin].
  inversion Hmax; inversion Hmin; subst. lia.
Qed.

End DiceProperties.

(** * Properties of the transcript with shared dicts *)

Section SharedProperties.
Context `{Tokenizer}.

Lemma contents_store a m (objects : nat → Message) (l : list nat) :
  a ∉ l → map (Shared.store a m objects) l = map objects l.
Proof.
  intros Hnot. apply map_ext_in. intros b Hb. unfold Shared.store.
  rewrite bool_decide_eq_false_2; [reflexivity|].
  intros ->. apply Hnot. now apply list_elem_of_In.
Qed.

Lemma take_delete_after {A} (n : nat) (l : list A) :
  (n + 1 < length l)%nat → take (S n) (delete (n + 1)%nat l) = take (S n) l.
Proof.
  intros Hlen. rewrite delete_take_drop.
  rewrite take_app_le by (rewrite length_take; lia).
  rewrite take_take. f_equal. lia.
Qed.

(** The loop changes neither the heap nor the primer, and keeps the
    messages up to the first active one in place. *)
Lemma shared_trim_loop_frame fuel : ∀ a ci s,
  Shared.heap (Shared.trim_loop fuel a ci s).2 = Shared.heap s
  ∧ Shared.initial_messages (Shared.trim_loop fuel a ci s).2
    = Shared.initial_messages s
  ∧ Shared.trim_message_callback (Shared.trim_loop fuel a ci s).2
    = Shared.trim_message_callback s
  ∧ take (S (length (Shared.initial_messages s)))
         (Shared.conversation_history (Shared.trim_loop fuel a ci s).2)
    = take (S (length (Shared.initial_messages s)))
           (Shared.conversation_history s).
Proof.
  induction fuel as [|fuel IH]; intros a ci s; simpl;
    destruct (Shared.response_token_size s); simpl; auto;
    destruct (bool_decide (a < _)); simpl; auto;
    destruct (bool_decide (_ < _)%nat) eqn:Hsev; simpl; auto.
  apply bool_decide_eq_true in Hsev.
  match goal with |- context [Shared.trim_loop fuel ?a' ?ci' ?s'] =>
    destruct (IH a' ci' s') as (Hheap & Hinit & Hcb & Htake) end.
  simpl in *. repeat split; try assumption.
  rewrite Htake. now apply take_delete_after.
Qed.

Lemma shared_call_trim_callback_frame s :
  Shared.heap (Shared.call_trim_callback s) = Shared.heap s
  ∧ Shared.initial_messages (Shared.call_trim_callback s)
    = Shared.initial_messages s
  ∧ Shared.conversation_history (Shared.call_trim_callback s)
    = Shared.conversation_history s.
Proof.
  unfold Shared.call_trim_callback.
  now destruct (Shared.trim_message_callback s).
Qed.

(** C7, as amended.  Let the transcript be the primer followed by the
    active segment.  After any call of [update_conversation_history],
    [initial_messages] is the same list and the transcript still starts
    with it: the evictions and the cut act only after the primer.  The
    dicts of the primer also hold what they held, provided that the dict
    of the last message is not one of them (the dicts of the primer
    having been created before: [next_address] is above their
    addresses). *)
Theorem primer_untouched_unless_shared mc role name s active :
  Shared.conversation_history s = Shared.initial_messages s ++ active →
  let s' := (Shared.update_conversation_history mc role name s).2 in
  Shared.initial_messages s' = Shared.initial_messages s
  ∧ (∃ active',
       Shared.conversation_history s' = Shared.initial_messages s ++ active')
  ∧ (Forall (λ a, (a < Shared.next_address s)%nat) (Shared.initial_messages s) →
     (∀ a, last active = Some a → a ∉ Shared.initial_messages s) →
     Shared.contents s' (Shared.initial_messages s')
     = Shared.contents s (Shared.initial_messages s)).
Proof.
  intros Hh s'. subst s'.
  unfold Shared.update_conversation_history.
  set (s0 := match mc with
             | Some c => Shared.append (new_message c role name) s
             | None => s
             end).
  set (n := length (Shared.initial_messages s)).
  set (unshared :=
         Forall (λ a, (a < Shared.next_address s)%nat) (Shared.initial_messages s)
         ∧ ∀ a, last active = Some a → a ∉ Shared.initial_messages s).
  assert (Hinit0 : Shared.initial_messages s0 = Shared.initial_messages s)
    by (subst s0; now destruct mc).
  assert (Hnext : unshared → Shared.next_address s ∉ Shared.initial_messages s).
  { intros [Hfresh _] Hin. apply (proj1 (Forall_forall _ _) Hfresh) in Hin. lia. }
  assert (Hheap0 : unshared →
                   map (Shared.heap s0) (Shared.initial_messages s)
                   = map (Shared.heap s) (Shared.initial_messages s)).
  { intros Hu. subst s0. destruct mc; simpl; [|reflexivity].
    apply contents_store. now apply Hnext. }
  assert (Hh0 : ∃ active0,
            Shared.conversation_history s0 = Shared.initial_messages s ++ active0
            ∧ (unshared →
               ∀ a, last active0 = Some a → a ∉ Shared.initial_messages s)).
  { subst s0. destruct mc as [c|]; simpl.
    - exists (active ++ [Shared.next_address s]). rewrite Hh, <- app_assoc.
      split; [reflexivity|]. intros Hu a. rewrite last_snoc.
      intros [= <-]. now apply Hnext.
    - exists active. split; [assumption|]. now intros [_ Hlast]. }
  destruct Hh0 as (active0 & Hh0 & Hlast0).
  assert (Hgoal : ∀ s1,
            Shared.initial_messages s1 = Shared.initial_messages s →
            take n (Shared.conversation_history s1)
            = take n (Shared.conversation_history s0) →
            (unshared →
             map (Shared.heap s1) (Shared.initial_messages s)
             = map (Shared.heap s) (Shared.initial_messages s)) →
            Shared.initial_messages s1 = Shared.initial_messages s
            ∧ (∃ active',
                 Shared.conversation_history s1
                 = Shared.initial_messages s ++ active')
            ∧ (Forall (λ a, (a < Shared.next_address s)%nat)
                 (Shared.initial_messages s) →
               (∀ a, last active = Some a → a ∉ Shared.initial_messages s) →
               Shared.contents s1 (Shared.initial_messages s1)
               = Shared.contents s (Shared.initial_messages s))).
  { intros s1 Hi Ht Hm. split; [assumption|]. split.
    - exists (drop n (Shared.conversation_history s1)).
      rewrite <- (take_drop n (Shared.conversation_history s1)) at 1.
      f_equal. rewrite Ht, Hh0. subst n. now rewrite take_app_length.
    - intros Hfresh Hlast. unfold Shared.contents. rewrite Hi.
      apply Hm. now split. }
  rewrite Hinit0. fold n.
  destruct (bool_decide (n + 1 < length (Shared.conversation_history s0))%nat).
  - destruct (shared_trim_loop_frame
                (length (Shared.conversation_history s0))
                (Shared.max_token_size s0 - Shared.tokens_used s0) false s0)
      as (Hheap & Hinit & _ & Htake).
    rewrite Hinit0 in Htake. fold n in Htake.
    destruct (Shared.trim_loop _ _ _ s0) as [[[a' ci']|e| |] s1]; simpl in *;
      try (apply Hgoal;
           [congruence
           |apply (take_shorter n (S n)); [lia|assumption]
           |now rewrite Hheap]).
    destruct ci'; [|apply Hgoal;
                     [congruence
                     |apply (take_shorter n (S n)); [lia|assumption]
                     |now rewrite Hheap]].
    destruct (shared_call_trim_callback_frame s1) as (Hheap1 & Hinit1 & Hhist1).
    apply Hgoal; [congruence| |now rewrite Hheap1, Hheap].
    rewrite Hhist1. apply (take_shorter n (S n)); [lia|assumption].
  - destruct (bool_decide (length (Shared.conversation_history s0) = n + 1)%nat)
      eqn:Hsingle; [|now apply Hgoal].
    apply bool_decide_eq_true in Hsingle.
    unfold Shared.truncate_last.
    destruct (Shared.response_token_size s0) as [r|]; [|now apply Hgoal].
    destruct (bool_decide (_ < r)); [|now apply Hgoal].
    destruct (last (Shared.conversation_history s0)) as [a|] eqn:Ha;
      [|now apply Hgoal].
    destruct (bool_decide (_ < Z.of_nat _)); [|now apply Hgoal].
    simpl.
    destruct (shared_call_trim_callback_frame
                (Shared.set_content a
                   (String.concat ""
                      (slice_to (Shared.max_token_size s0
                                 - Shared.tokens_used s0 - r)
                         (tokenize (content (Shared.heap s0 a))))) s0))
      as (Hheap1 & Hinit1 & Hhist1).
    apply Hgoal.
    + now rewrite Hinit1.
    + now rewrite Hhist1.
    + intros Hu. rewrite Hheap1. simpl.
      rewrite contents_store; [now apply Hheap0|].
      apply (Hlast0 Hu). rewrite Hh0 in Ha, Hsingle.
      rewrite length_app in Hsingle. fold n in Hsingle.
      destruct active0 as [|x active0]; [simpl in Hsingle; lia|].
      rewrite last_app_cons in Ha. exact Ha.
Qed.

End SharedProperties.

(** * The contents of a transcript without sharing *)

Section Refinement.
Context `{Tokenizer} `{JsonDecoder}.

Lemma map_delete {A B} (f : A → B) (i : nat) (l : list A) :
  map f (delete i l) = delete i (map f l).
Proof.
  revert i. induction l as [|x l IH]; intros [|i]; simpl; try reflexivity.
  now rewrite IH.
Qed.

Lemma represents_lengths s w :
  represents s w →
  length (Shared.initial_messages s) = length (initial_messages (self w))
  ∧ length (Shared.conversation_history s)
    = length (conversation_history (self w)).
Proof.
  intros (Hi & Hh & _). unfold Shared.contents in *.
  rewrite <- Hi, <- Hh, !length_map. now split.
Qed.

(** The loop on addresses and the loop on contents go together. *)
Lemma trim_loop_represents fuel : ∀ a ci s w,
  represents s w →
  (Shared.trim_loop fuel a ci s).1 = (trim_loop fuel a ci w).1
  ∧ represents (Shared.trim_loop fuel a ci s).2 (trim_loop fuel a ci w).2
  ∧ Shared.calls (Shared.trim_loop fuel a ci s).2 = Shared.calls s
  ∧ trace (trim_loop fuel a ci w).2 = trace w.
Proof.
  induction fuel as [|fuel IH]; intros a ci s w Hrep;
    destruct (represents_lengths s w Hrep) as [Hli Hlh];
    pose proof Hrep as (Hi & Hh & Hmax & Hres & Hcb);
    rewrite trim_loop_unfold; simpl; rewrite Hres;
    destruct (response_token_size (self w)) as [r|] eqn:Hr;
    simpl; auto;
    destruct (bool_decide (a < r)); simpl; auto;
    unfold several_active; rewrite Hli, Hlh;
    destruct (bool_decide (_ < _)%nat); simpl; auto.
  rewrite <- Hli, Nat.add_1_r.
  set (i := S (length (Shared.initial_messages s))).
  assert (Hrep1 : represents
                    (Shared.set_conversation_history
                       (delete i (Shared.conversation_history s)) s)
                    (with_history (delete i (conversation_history (self w))) w)).
  { unfold represents, Shared.contents in *. simpl.
    rewrite map_delete, Hh. repeat split; try assumption. congruence. }
  assert (Ha : Shared.max_token_size s
               - Shared.tokens_used
                   (Shared.set_conversation_history
                      (delete i (Shared.conversation_history s)) s)
               = max_token_size (self w)
                 - count_tokens (delete i (conversation_history (self w)))).
  { unfold Shared.tokens_used, Shared.contents. simpl.
    unfold Shared.contents in Hh. now rewrite map_delete, Hh, Hmax. }
  assert (Hc : (if negb ci
                   && bool_decide (is_Some (Shared.trim_message_callback s))
                then true else ci)
               = ci || bool_decide (is_Some (trim_message_callback (self w)))).
  { rewrite Hcb.
    now destruct ci, (bool_decide (is_Some (trim_message_callback (self w)))). }
  rewrite Ha, Hc.
  destruct (IH (max_token_size (self w)
                - count_tokens (delete i (conversation_history (self w))))
               (ci || bool_decide (is_Some (trim_message_callback (self w))))
               _ _ Hrep1) as (Ho & Hr' & Hcalls & Htrace).
  split; [assumption|]. split; [assumption|]. split; assumption.
Qed.

Lemma call_trim_callback_represents (fires : bool) s w :
  represents s w →
  represents (if fires then Shared.call_trim_callback s else s)
             (after_callback fires w)
  ∧ ∃ fired,
      Shared.calls (if fires then Shared.call_trim_callback s else s)
      = Shared.calls s ++ fired
      ∧ trace (after_callback fires w) = trace w ++ fired.
Proof.
  intros Hrep. pose proof Hrep as (Hi & Hh & Hmax & Hres & Hcb).
  unfold after_callback, Shared.call_trim_callback. rewrite Hcb.
  destruct (trim_message_callback (self w)) as [cb|] eqn:Hcbw.
  - destruct fires.
    + split.
      * unfold represents, Shared.contents in *. simpl. rewrite Hcbw.
        repeat split; assumption.
      * exists [EvTrim cb (conversation_history (self w))]. simpl.
        unfold Shared.contents in *. now rewrite Hh.
    + split; [assumption|]. exists []. now rewrite !app_nil_r.
  - split; [now destruct fires|]. exists [].
    rewrite !app_nil_r. now destruct fires.
Qed.

Lemma update_None_represents role name s w :
  represents s w →
  last_unshared s →
  (Shared.update_conversation_history None role name s).1
  = (update_conversation_history None role name w).1
  ∧ represents (Shared.update_conversation_history None role name s).2
               (update_conversation_history None role name w).2
  ∧ ∃ fired,
      Shared.calls (Shared.update_conversation_history None role name s).2
      = Shared.calls s ++ fired
      ∧ trace (update_conversation_history None role name w).2
        = trace w ++ fired.
Proof.
  intros Hrep Hlast. destruct (represents_lengths s w Hrep) as [Hli Hlh].
  pose proof Hrep as (Hi & Hh & Hmax & Hres & Hcb).
  assert (Htokens : Shared.max_token_size s - Shared.tokens_used s
                    = max_token_size (self w)
                      - count_tokens (conversation_history (self w))).
  { unfold Shared.tokens_used. now rewrite Hh, Hmax. }
  rewrite update_None_unfold. unfold Shared.update_conversation_history.
  cbv zeta. rewrite Htokens. unfold several_active, single_active.
  rewrite Hli, Hlh.
  set (a0 := max_token_size (self w)
             - count_tokens (conversation_history (self w))).
  destruct (bool_decide (_ < _)%nat).
  - destruct (trim_loop_represents (length (conversation_history (self w)))
                a0 false s w Hrep) as (Ho & Hrep1 & Hcalls & Htrace).
    destruct (Shared.trim_loop _ a0 false s) as [o s1].
    destruct (trim_loop _ a0 false w) as [[[a' ci']|e| |] w1];
      simpl in Ho; subst o; simpl in *;
      try (split; [reflexivity|]; split; [assumption|];
           exists []; now rewrite !app_nil_r, Hcalls, Htrace).
    destruct (call_trim_callback_represents ci' s1 w1 Hrep1)
      as (Hrep2 & fired & Hc2 & Ht2).
    split; [reflexivity|]. split; [assumption|].
    exists fired. now rewrite Hc2, Ht2, Hcalls, Htrace.
  - destruct (bool_decide (_ = _)%nat) eqn:Hsingle.
    + apply bool_decide_eq_true in Hsingle.
      unfold Shared.truncate_last. rewrite Hres.
      destruct (response_token_size (self w)) as [r|] eqn:Hr.
      * destruct (bool_decide (a0 < r)) eqn:Hlt.
        -- apply bool_decide_eq_true in Hlt.
           destruct (truncate_last_single a0 r w) as (m & Hm & ->);
             [lia|assumption|assumption|].
           destruct (Shared.conversation_history s) as [|x l] eqn:Hhs
             using rev_ind; [simpl in Hlh; lia|]. clear IHl.
           rewrite last_snoc.
           destruct (Hlast l x Hhs) as [Hxi Hxl].
           unfold Shared.contents in Hh, Hi.
           rewrite map_app in Hh. simpl in Hh.
           assert (Hlen : length l = length (initial_messages (self w))).
           { rewrite length_app in Hlh. simpl in Hlh. lia. }
           assert (Hx : Shared.heap s x = m).
           { rewrite <- Hh in Hm.
             rewrite lookup_app_r in Hm by (rewrite length_map; lia).
             rewrite length_map, Hlen, Nat.sub_diag in Hm.
             now injection Hm. }
           rewrite Hx, bool_decide_eq_true_2
             by (pose proof (Nat2Z.is_nonneg (length (tokenize (content m))));
                 lia).
           simpl.
           set (s1 := Shared.set_content x _ s).
           set (w1 := with_history _ w).
           assert (Hrep1 : represents s1 w1).
           { subst s1 w1. unfold represents, Shared.contents. simpl.
             rewrite Hhs, map_app. simpl.
             rewrite !contents_store by assumption.
             unfold Shared.store at 1. rewrite bool_decide_eq_true_2 by reflexivity.
             rewrite Hx. split; [assumption|]. split.
             - rewrite <- Hh.
               rewrite insert_app_r_alt by (rewrite length_map; lia).
               rewrite length_map, Hlen, Nat.sub_diag. reflexivity.
             - repeat split; congruence. }
           destruct (call_trim_callback_represents true s1 w1 Hrep1)
             as (Hrep2 & fired & Hc2 & Ht2).
           split; [reflexivity|]. split; [exact Hrep2|].
           exists fired. split; [exact Hc2|exact Ht2].
        -- split; [reflexivity|]. split; [assumption|].
           exists []. now rewrite !app_nil_r.
      * split; [reflexivity|]. split; [assumption|].
        exists []. now rewrite !app_nil_r.
    + split; [reflexivity|]. split; [assumption|].
      exists []. now rewrite !app_nil_r.
Qed.

(** X26.  On a transcript whose last dict is referenced nowhere else
    (as after any append, the new dict being fresh), the call on the
    addresses and the call on the contents return the same value and
    make the same calls of the callback, and the contents of the lists
    afterwards are the transcript and the primer afterwards: assigning
    to the content of the last dict is replacing the last message. *)
Theorem update_on_contents mc role name s w :
  represents s w →
  allocated s →
  (mc = None → last_unshared s) →
  (Shared.update_conversation_history mc role name s).1
  = (update_conversation_history mc role name w).1
  ∧ represents (Shared.update_conversation_history mc role name s).2
               (update_conversation_history mc role name w).2
  ∧ ∃ fired,
      Shared.calls (Shared.update_conversation_history mc role name s).2
      = Shared.calls s ++ fired
      ∧ trace (update_conversation_history mc role name w).2
        = trace w ++ fired.
Proof.
  intros Hrep Halloc Hlast.
  destruct mc as [c|]; [|apply update_None_represents; auto].
  rewrite update_appended. cbn [appended].
  change (Shared.update_conversation_history (Some c) role name s)
    with (Shared.update_conversation_history None role name
            (Shared.append (new_message c role name) s)).
  pose proof Hrep as (Hi & Hh & Hmax & Hres & Hcb).
  apply Forall_app in Halloc as [Hai Hah].
  assert (Hni : Shared.next_address s ∉ Shared.initial_messages s).
  { intros Hin. apply (proj1 (Forall_forall _ _) Hai) in Hin. lia. }
  assert (Hnh : Shared.next_address s ∉ Shared.conversation_history s).
  { intros Hin. apply (proj1 (Forall_forall _ _) Hah) in Hin. lia. }
  apply (update_None_represents role name
           (Shared.append (new_message c role name) s)
           (with_history (conversation_history (self w)
                          ++ [new_message c role name]) w)).
  - unfold represents, Shared.contents in *. simpl.
    rewrite map_app. simpl. rewrite !contents_store by assumption.
    unfold Shared.store. rewrite bool_decide_eq_true_2 by reflexivity.
    rewrite Hh. repeat split; assumption.
  - intros h a. simpl. intros Heq. apply app_inj_tail in Heq as [<- <-].
    now split.
Qed.

End Refinement.

(** * The scenarios, run *)

Section Runs.
Local Existing Instance char_tokenizer.
Local Existing Instance text_decoder.

Lemma string_length_append (s1 s2 : string) :
  String.length (s1 +:+ s2) = (String.length s1 + String.length s2)%nat.
Proof.
  induction s1 as [|a s1 IH]; [reflexivity|].
  change (String a s1 +:+ s2) with (String a (s1 +:+ s2)).
  simpl. now rewrite IH.
Qed.

Lemma length_concat_characters (l : list string) :
  Forall (λ x, String.length x = 1%nat) l →
  String.length (String.concat "" l) = length l.
Proof.
  induction 1 as [|x l Hx Hl IH]; [reflexivity|].
  destruct l as [|y l]; [exact Hx|].
  change (String.concat "" (x :: y :: l))
    with (x +:+ "" +:+ String.concat "" (y :: l)).
  rewrite !string_length_append, Hx, IH. reflexivity.
Qed.

Lemma characters_single s : Forall (λ x, String.length x = 1%nat) (characters s).
Proof. induction s; simpl; constructor; auto. Qed.

Lemma characters_prefix s (k : nat) :
  count_tokens_text (String.concat "" (take k (tokenize s))) ≤ Z.of_nat k.
Proof.
  simpl. rewrite length_concat_characters.
  - rewrite length_take. lia.
  - apply Forall_take, characters_single.
Qed.

(** C1.  A, B and C are appended in this order; when C arrives the
    budget is exceeded, and the message removed is B, at index
    [len(initial_messages) + 1]: A, the oldest active message, stays. *)
Theorem eviction_removes_second_oldest :
  add_messages ["aaaa"; "bbbb"] eviction_order_world
  = (Ok tt,
     with_history [said "system" "pp"; said "user" "aaaa"; said "user" "bbbb"]
       eviction_order_world)
  ∧ add_messages ["aaaa"; "bbbb"; "cccc"] eviction_order_world
    = (Ok tt,
       with_event
         (EvTrim "on_trim"
            [said "system" "pp"; said "user" "aaaa"; said "user" "cccc"])
         (with_history
            [said "system" "pp"; said "user" "aaaa"; said "user" "cccc"]
            eviction_order_world)).
Proof. split; reflexivity. Qed.

(** C2.  The loop removes the message that has just come and stops at
    one active message, which it leaves uncut: 10 tokens are used, 2 are
    available, and 5 were to be kept. *)
Theorem eviction_leaves_oversized_message :
  update_conversation_history (Some "bbbbbbbb") "user" None oversized_world
  = (Ok 2,
     with_event (EvTrim "on_trim" [said "system" "pp"; said "user" "aaaaaaaa"])
       oversized_world)
  ∧ count_tokens [said "system" "pp"; said "user" "aaaaaaaa"] + 5 > 12.
Proof. split; reflexivity. Qed.

(** C3.  The handler of [lookup] raises: [respond] raises
    [AttributeError], the message of the user stays in the transcript and
    the error callback given to [__init__] is not called. *)
Theorem handler_failure_raises :
  respond "hi" lookup_world
  = (Raised {| exn_class := AttributeError;
               exn_detail :=
                 "'OpenAIChatbot' object has no attribute 'error_callback'" |},
     {| self := set_conversation_history
                  [said "system" "Be kind."; said "user" "hi"] lookup_bot;
        service := [text_reply "Sorry."];
        trace := [EvRequest FirstRequest
                    {| req_model := "gpt-3.5-turbo";
                       req_messages :=
                         [said "system" "Be kind."; said "user" "hi"];
                       req_functions := Some ["lookup"];
                       req_max_tokens := Some 20 |}] |}).
Proof. vm_compute. reflexivity. Qed.

(** C4, as stated.  The call without content removes a message. *)
Lemma update_None_evicts :
  length (conversation_history (self overfull_world)) = 3%nat
  ∧ length (conversation_history
              (self (update_conversation_history None "user" None
                       overfull_world).2)) = 2%nat.
Proof. split; reflexivity. Qed.

(** C5.  The service calls [weather] and sends no content:
    [generate_response] prints that the function is not recognized and
    raises [TypeError]. *)
Theorem unknown_function_raises :
  generate_response weather_world
  = (Raised {| exn_class := TypeError;
               exn_detail := "'NoneType' object is not subscriptable" |},
     {| self := lookup_bot;
        service := [];
        trace := [EvRequest FirstRequest (request_of lookup_bot);
                  EvPrint "Function weather is not recognized."] |}).
Proof. vm_compute. reflexivity. Qed.

(** A run of C6: the 45 characters are cut to their first 20. *)
Lemma truncation_example_witness :
  (update_conversation_history (Some long_text) "user" None truncation_world).1
  = Ok 20
  ∧ conversation_history
      (self (update_conversation_history (Some long_text) "user" None
               truncation_world).2)
    = [said "system" "0123456789"; cut_message (said "user" long_text) (-25)]
  ∧ count_tokens
      (conversation_history
         (self (update_conversation_history (Some long_text) "user" None
                  truncation_world).2))
    ≤ 30.
Proof.
  apply (truncation_example (Some long_text) "user" None truncation_world
           (said "user" long_text)); try reflexivity.
  intros k. apply characters_prefix.
Defined.




End Runs.

(** * Further runs *)

Section FurtherRuns.
Local Existing Instance char_tokenizer.
Local Existing Instance text_decoder.

Lemma characters_count_nonneg text : 0 ≤ count_tokens_text text.
Proof. simpl. lia. Qed.

(** A run of X1: a message of four tokens fits. *)
Lemma update_within_budget_witness :
  update_conversation_history (Some "aaaa") "user" None eviction_order_world
  = (Ok 6,
     with_history [said "system" "pp"; said "user" "aaaa"] eviction_order_world).
Proof.
  refine (update_within_budget "aaaa" "user" None eviction_order_world 2
           eq_refl _);
    vm_compute; discriminate.
Defined.

(** A run of X2: the second message of eight tokens is dropped. *)
Lemma update_drops_new_message_witness :
  (update_conversation_history (Some "bbbbbbbb") "user" None oversized_world).1
  = Ok 2
  ∧ self (update_conversation_history (Some "bbbbbbbb") "user" None
            oversized_world).2
    = self oversized_world
  ∧ service (update_conversation_history (Some "bbbbbbbb") "user" None
               oversized_world).2
    = []
  ∧ trace (update_conversation_history (Some "bbbbbbbb") "user" None
             oversized_world).2
    = [EvTrim "on_trim" [said "system" "pp"; said "user" "aaaaaaaa"]].
Proof.
  exact (update_drops_new_message "bbbbbbbb" "user" None oversized_world 5
           (said "user" "aaaaaaaa") eq_refl eq_refl eq_refl).
Defined.

(** A run of X3: two messages go, the oldest active one stays. *)
Lemma oldest_active_message_stays_witness :
  conversation_history
    (self (update_conversation_history (Some "cccc") "user" None
             overfull_world).2) !! 1%nat
  = Some (said "user" "aaaaaaaa")
  ∧ ∃ k, (k ≤ 2)%nat
         ∧ conversation_history
             (self (update_conversation_history (Some "cccc") "user" None
                      overfull_world).2)
           = take 2 [said "system" "pp"; said "user" "aaaaaaaa";
                     said "user" "bbbbbbbb"; said "user" "cccc"]
             ++ drop (2 + k) [said "system" "pp"; said "user" "aaaaaaaa";
                              said "user" "bbbbbbbb"; said "user" "cccc"].
Proof.
  refine (oldest_active_message_stays (Some "cccc") "user" None overfull_world
           _);
    simpl; lia.
Defined.

(** A run of X4: after the evictions one message is left and 2 tokens
    are available. *)
Lemma update_returned_value_witness :
  ∃ a, (update_conversation_history None "user" None overfull_world).1 = Ok a
       ∧ (a = 12 - count_tokens
                     (conversation_history
                        (self (update_conversation_history None "user" None
                                 overfull_world).2))
          ∨ (length (conversation_history
                       (self (update_conversation_history None "user" None
                                overfull_world).2)) = 2%nat
             ∧ a = 5))
       ∧ (5 ≤ a
          ∨ (length (conversation_history
                       (self (update_conversation_history None "user" None
                                overfull_world).2)) ≤ 2)%nat).
Proof.
  exact (update_returned_value None "user" None overfull_world 5 eq_refl).
Defined.



(** A run of X7: a function message arrives and two messages go. *)
Lemma update_keeps_names_witness :
  Forall (λ m, named_iff_function m = true)
    (conversation_history
       (self (update_conversation_history (Some "7") "function" (Some "roll")
                overfull_world).2)).
Proof.
  refine (update_keeps_names (Some "7") "function" (Some "roll") overfull_world
           _);
    repeat constructor.
Defined.

(** A run of X8: the first message on a default chatbot. *)
Lemma update_without_reserve_raises_witness :
  update_conversation_history (Some "hi") "user" None default_world
  = (Raised {| exn_class := TypeError;
               exn_detail :=
                 "'<' not supported between instances of 'int' and 'NoneType'" |},
     with_history [said "system" "pp"; said "user" "hi"] default_world)
  ∧ respond "hello" default_world
    = (Raised {| exn_class := TypeError;
                 exn_detail :=
                   "'<' not supported between instances of 'int' and 'NoneType'" |},
       with_history [said "system" "pp"; said "user" "hello"] default_world).
Proof.
  refine (update_without_reserve_raises "hi" "user" None "hello" default_world
           eq_refl _);
    simpl; lia.
Defined.

(** A run of X9. *)
Lemma rollback_undoes_update_witness :
  update_then_rollback "aaaa" "user" None eviction_order_world
  = (Ok tt, eviction_order_world).
Proof.
  refine (rollback_undoes_update "aaaa" "user" None eviction_order_world 2
           eq_refl _);
    vm_compute; discriminate.
Defined.

(** A run of X10: the primer of one message is emptied. *)
Lemma rollback_reaches_primer_witness :
  rollback eviction_order_world = (Ok tt, with_history [] eviction_order_world)
  ∧ get_conversation (self (with_history [] eviction_order_world)) = []
  ∧ update_conversation_history (Some "aaaa") "user" None
      (with_history [] eviction_order_world)
    = (Ok 8, with_history [said "user" "aaaa"] eviction_order_world).
Proof.
  exact (rollback_reaches_primer "aaaa" "user" None eviction_order_world []
           (said "system" "pp") eq_refl eq_refl).
Defined.

(** A run of X11: two messages are added and read back. *)
Lemma get_conversation_after_add_messages_witness :
  (add_messages ["aaaa"; "bbbb"] eviction_order_world).1 = Ok tt
  ∧ get_conversation (self (add_messages ["aaaa"; "bbbb"] eviction_order_world).2)
    = [said "user" "aaaa"; said "user" "bbbb"].
Proof.
  refine (get_conversation_after_add_messages ["aaaa"; "bbbb"]
           eviction_order_world 2 [] characters_count_nonneg
           eq_refl eq_refl _);
    vm_compute; discriminate.
Defined.

(** A run of X14. *)
Lemma terminal_reply_is_returned_witness :
  generate_response done_world
  = (Ok "Done.", after_request FirstRequest [] done_world).
Proof.
  exact (terminal_reply_is_returned done_world (text_reply "Done.") [] "Done."
           "."%char eq_refl eq_refl eq_refl eq_refl eq_refl).
Defined.

(** A run of X15: the reply has no content. *)
Lemma empty_reply_raises_witness :
  generate_response silent_world
  = (Raised {| exn_class := TypeError;
               exn_detail := "'NoneType' object is not subscriptable" |},
     after_request FirstRequest [] silent_world).
Proof.
  exact (empty_reply_raises silent_world
           {| function_call := None; reply_content := None |} []
           eq_refl eq_refl).
Defined.

(** A run of X16: the arguments are the empty text. *)
Lemma dispatch_failures_propagate_witness :
  generate_response malformed_world
  = (Raised {| exn_class := JSONDecodeError; exn_detail := "Expecting value" |},
     after_request FirstRequest [] malformed_world).
Proof.
  exact (dispatch_failures_propagate malformed_world (call_reply "lookup" "") []
           {| fc_name := "lookup"; fc_arguments := "" |} eq_refl eq_refl).
Defined.

(** A run of X17: [lookup] raises during a turn. *)
Lemma respond_handler_failure_witness :
  respond "hi" lookup_world
  = (Raised {| exn_class := AttributeError;
               exn_detail :=
                 "'OpenAIChatbot' object has no attribute 'error_callback'" |},
     after_request FirstRequest [text_reply "Sorry."]
       (with_history [said "system" "Be kind."; said "user" "hi"] lookup_world)).
Proof.
  refine (respond_handler_failure "hi" lookup_world 20
            (call_reply "lookup" "{}") [text_reply "Sorry."]
            {| fc_name := "lookup"; fc_arguments := "{}" |} "{}"
            failing_registry (λ _, Raises "boom") "boom"
            eq_refl eq_refl _ eq_refl eq_refl eq_refl eq_refl eq_refl eq_refl);
    vm_compute; discriminate.
Defined.

(** A run of X18: the exception of [lookup] is replaced. *)
Lemma registered_call_masks_exceptions_witness :
  match (generate_response lookup_world).1 with
  | Ok _ | NoReply => True
  | Raised e =>
      e = {| exn_class := AttributeError;
             exn_detail :=
               "'OpenAIChatbot' object has no attribute 'error_callback'" |}
  | OutOfFuel => False
  end.
Proof.
  exact (registered_call_masks_exceptions lookup_world
           (call_reply "lookup" "{}") [text_reply "Sorry."]
           {| fc_name := "lookup"; fc_arguments := "{}" |} "{}"
           failing_registry (λ _, Raises "boom")
           eq_refl eq_refl eq_refl eq_refl eq_refl eq_refl).
Defined.

(** A run of X19. *)
Lemma unknown_function_degrades_witness :
  generate_response sunny_world
  = (Ok "It is sunny.",
     with_event (EvPrint "Function weather is not recognized.")
       (after_request FirstRequest [] sunny_world)).
Proof.
  exact (unknown_function_degrades sunny_world
           {| function_call :=
                Some {| fc_name := "weather"; fc_arguments := "{}" |};
              reply_content := Some "It is sunny." |} []
           {| fc_name := "weather"; fc_arguments := "{}" |} "{}"
           failing_registry "It is sunny." "."%char
           eq_refl eq_refl eq_refl eq_refl eq_refl eq_refl eq_refl eq_refl).
Defined.

(** A run of X20: [roll] returns 7 and the service answers. *)
Lemma function_call_then_answer_witness :
  generate_response roll_world
  = (Ok "You rolled 7.",
     after_request FirstRequest []
       (with_history
          [said "system" "Be kind.";
           {| role := "function"; content := "7"; name := Some (Some "roll") |}]
          (after_request FirstRequest [text_reply "You rolled 7."] roll_world))).
Proof.
  refine (function_call_then_answer roll_world 20
            (call_reply "roll" "{}") (text_reply "You rolled 7.") []
            {| fc_name := "roll"; fc_arguments := "{}" |} "{}"
            rolling_registry (λ _, Returns (Some "7")) "7" "You rolled 7."
            "."%char
            eq_refl eq_refl eq_refl eq_refl eq_refl eq_refl eq_refl _
            eq_refl eq_refl eq_refl eq_refl);
    vm_compute; discriminate.
Defined.

(** A run of X21. *)
Lemma respond_plain_turn_witness :
  respond "hi" done_world
  = (Ok "Done.",
     after_request FirstRequest []
       (with_history [said "system" "Be kind."; said "user" "hi"] done_world)).
Proof.
  refine (respond_plain_turn "hi" done_world 20 (text_reply "Done.") [] "Done."
            "."%char eq_refl _ eq_refl eq_refl eq_refl eq_refl eq_refl);
    vm_compute; discriminate.
Defined.

(** C7, as stated.  The constructor is given the same dict as primer and
    as message; the call without content cuts the last message, which
    is that dict, and the content of the primer changes with it. *)
Lemma shared_primer_is_cut :
  Shared.initial_messages shared_bot = [0%nat]
  ∧ Shared.conversation_history shared_bot = [0%nat; 0%nat]
  ∧ Shared.contents shared_bot (Shared.initial_messages shared_bot)
    = [said "system" "aaaaaaaa"]
  ∧ (Shared.update_conversation_history None "user" None shared_bot).1 = Ok 5
  ∧ Shared.contents
      (Shared.update_conversation_history None "user" None shared_bot).2
      (Shared.initial_messages
         (Shared.update_conversation_history None "user" None shared_bot).2)
    = [said "system" ""].
Proof. repeat split; reflexivity. Qed.

(** A run of C7 as amended: the message, in a dict of its own, is cut
    and the primer keeps its content. *)
Lemma primer_untouched_unless_shared_witness :
  Shared.initial_messages
    (Shared.update_conversation_history None "user" None separate_bot).2
  = [0%nat]
  ∧ (∃ active',
       Shared.conversation_history
         (Shared.update_conversation_history None "user" None separate_bot).2
       = [0%nat] ++ active')
  ∧ Shared.contents
      (Shared.update_conversation_history None "user" None separate_bot).2
      (Shared.initial_messages
         (Shared.update_conversation_history None "user" None separate_bot).2)
    = [said "system" "pp"].
Proof.
  destruct (primer_untouched_unless_shared None "user" None separate_bot
              [1%nat] eq_refl) as (Hinitial & Hfirst & Hcontents).
  split; [exact Hinitial|]. split; [exact Hfirst|].
  apply Hcontents.
  - repeat constructor.
  - intros a [= <-] Hin. apply list_elem_of_singleton in Hin. discriminate.
Defined.

(** A run of X26: the message of twelve tokens is cut in both. *)
Lemma update_on_contents_witness :
  (Shared.update_conversation_history None "user" None separate_bot).1
  = (update_conversation_history None "user" None separate_world).1
  ∧ represents
      (Shared.update_conversation_history None "user" None separate_bot).2
      (update_conversation_history None "user" None separate_world).2
  ∧ ∃ fired,
      Shared.calls
        (Shared.update_conversation_history None "user" None separate_bot).2
      = Shared.calls separate_bot ++ fired
      ∧ trace (update_conversation_history None "user" None separate_world).2
        = trace separate_world ++ fired.
Proof.
  refine (update_on_contents None "user" None separate_bot separate_world
            _ _ _).
  - repeat split.
  - repeat constructor.
  - intros _ h a Heq.
    change (Shared.conversation_history separate_bot)
      with ([0%nat] ++ [1%nat]) in Heq.
    apply app_inj_tail in Heq as [<- <-].
    split; intros Hin; apply list_elem_of_singleton in Hin; discriminate.
Defined.

End FurtherRuns.

(** * Runs of [roll_dice] *)

Section DiceRuns.
Local Existing Instance counter_source.

Lemma counter_in_range : randint_in_range.
Proof.
  intros a b g Hab. simpl.
  pose proof (Z.mod_pos_bound g (b - a + 1) ltac:(lia)). lia.
Qed.

(** A run of X23: three six-sided dice and a modifier of 2. *)
Lemma roll_dice_sum_witness :
  ∃ roll g',
    roll_dice 6 3 2 false false 4 = inr (roll, g')
    ∧ length (rolls roll) = 3%nat
    ∧ Forall (λ x, 1 ≤ x ≤ 6) (rolls roll)
    ∧ result roll = py_sum (rolls roll) + 2
    ∧ 3 + 2 ≤ result roll ≤ 3 * 6 + 2.
Proof.
  refine (roll_dice_sum 6 3 2 4 counter_in_range _). lia.
Defined.

(** A run of X24: the default d20 with advantage. *)
Lemma roll_dice_advantage_witness :
  ∃ roll g',
    roll_dice 20 1 0 true false 17 = inr (roll, g')
    ∧ length (rolls roll) = 2%nat
    ∧ (2 ≤ length (rolls roll))%nat
    ∧ result roll - 0 ∈ rolls roll
    ∧ Forall (λ x, x + 0 ≤ result roll) (rolls roll)
    ∧ 1 + 0 ≤ result roll ≤ 20 + 0.
Proof.
  refine (roll_dice_advantage 20 1 0 true false 17 counter_in_range _ _);
    [lia|discriminate].
Defined.

(** A run of X25. *)
Lemma advantage_beats_disadvantage_witness :
  ∃ high low g',
    roll_dice 20 1 0 true false 17 = inr (high, g')
    ∧ roll_dice 20 1 0 false true 17 = inr (low, g')
    ∧ rolls high = rolls low
    ∧ result low ≤ result high.
Proof.
  refine (advantage_beats_disadvantage 20 1 0 17 _). lia.
Defined.

End DiceRuns.
